(** * download_large.py: a shallow embedding of the parallel resumable downloader

    The development follows [scripts/download_large.py]: the capability probe
    ([probe_size_and_range]), the sequential transfer ([single_thread_download]),
    the resume store ([_read_state], [_write_state]), the positional writer
    ([_write_at]), the segment worker ([download_part_direct]) and the
    orchestrator ([parallel_download]).

    Python integers are [Z]; byte strings are [list byte]; text is [string];
    the filesystem is a finite map from paths to file contents plus a set of
    directories; the network is a function from the request history and the
    current request to a response; exceptions are values of an error monad
    that threads the world explicitly. *)

From Stdlib Require Import ZArith QArith Lia Ascii String DecimalString DecimalZ.
From Stdlib Require Import Strings.Byte.
From stdpp Require Import base tactics option list gmap strings.

Local Open Scope string_scope.
Local Open Scope list_scope.
Local Open Scope Z_scope.

(** ** Python text primitives *)

Module Py.

(** [str(n)] for an integer: decimal digits, a leading minus sign for
    negative numbers. *)
Definition str (z : Z) : string := NilZero.string_of_int (Z.to_int z).

(** Characters removed by [str.strip()] among the code points below 128. *)
Definition is_space (c : ascii) : bool :=
  let n := nat_of_ascii c in
  ((9 <=? n) && (n <=? 13) || (28 <=? n) && (n <=? 32))%nat.

Fixpoint lstrip (s : string) : string :=
  match s with
  | String c s' => if is_space c then lstrip s' else s
  | EmptyString => EmptyString
  end.

(** Right strip: drop the trailing run of white space. *)
Fixpoint rstrip (s : string) : string :=
  match s with
  | EmptyString => EmptyString
  | String c s' =>
      match rstrip s' with
      | EmptyString => if is_space c then EmptyString else String c EmptyString
      | r => String c r
      end
  end.

Definition strip (s : string) : string := rstrip (lstrip s).

Definition is_ascii_digit (c : ascii) : bool :=
  let n := nat_of_ascii c in ((48 <=? n) && (n <=? 57))%nat.

(** [c.isdigit()] for a header character: HTTP headers are decoded as
    Latin-1, where the superscripts two, three and one (code points 178,
    179, 185) are digits for [isdigit] although [int] rejects them. *)
Definition is_digit_char (c : ascii) : bool :=
  let n := nat_of_ascii c in
  is_ascii_digit c || (n =? 178)%nat || (n =? 179)%nat || (n =? 185)%nat.

Fixpoint all_chars (p : ascii -> bool) (s : string) : bool :=
  match s with
  | EmptyString => true
  | String c s' => p c && all_chars p s'
  end.

(** [s.isdigit()]: non-empty and every character a digit. *)
Definition isdigit (s : string) : bool :=
  match s with
  | EmptyString => false
  | _ => all_chars is_digit_char s
  end.

(** Value of a non-empty run of ASCII digits. *)
Definition digits_value (s : string) : option Z :=
  match s with
  | EmptyString => None
  | _ => option_map (fun u => Z.of_int (Decimal.Pos u)) (NilEmpty.uint_of_string s)
  end.

(** [int(s)] on text: surrounding white space, an optional sign, then
    decimal digits.  [None] stands for the [ValueError] Python raises.
    Digit-group underscores and non-ASCII digits, which Python also
    accepts, are outside this grammar and read as [None]. *)
Definition int (s : string) : option Z :=
  match strip s with
  | String "-" r => option_map Z.opp (digits_value r)
  | String "+" r => digits_value r
  | r => digits_value r
  end.

(** [s.split("/")[-1]]: the text after the last slash (all of [s] when
    there is none). *)
Fixpoint has_slash (s : string) : bool :=
  match s with
  | EmptyString => false
  | String c s' => Ascii.eqb c "/" || has_slash s'
  end.

Fixpoint after_last_slash (s : string) : string :=
  match s with
  | EmptyString => EmptyString
  | String c s' =>
      if has_slash s' then after_last_slash s'
      else if Ascii.eqb c "/" then s' else s
  end.

(** [s.startswith(p)] *)
Definition startswith (s p : string) : bool := String.prefix p s.

End Py.

(** ** Exceptions, requests and the world *)

Inductive exn_kind : Type :=
| HTTPError | RequestException | OSError | RuntimeError | ValueError.

(** An exception: its class and the text [str(e)] gives. *)
Record exn : Type := Exn { exn_class : exn_kind; exn_str : string }.

Inductive res (A : Type) : Type :=
| Ret (a : A)
| Raise (e : exn).
Arguments Ret {A} a.
Arguments Raise {A} e.

(** [Head url] is [sess.head(url)]; [Get url (Some (a, b))] is [sess.get]
    with the header [Range: bytes=a-b]; [Get url None] has no Range header. *)
Inductive request : Type :=
| Head (url : string)
| Get (url : string) (range : option (Z * Z)).

(** What the process does to the outside besides the filesystem:
    requests sent and pauses taken.  [EvSleep b k] is [time.sleep(b ** k)]. *)
Inductive event : Type :=
| EvRequest (r : request)
| EvSleep (base : Q) (attempt : Z).

(** A response: status line, the two headers the program reads, the
    blocks [iter_content] yields and the exception (if any) with which
    the stream breaks after them.  Each block carries the outcome of the
    clock test [now - last_state_flush >= 0.25] made after it is written. *)
Record response : Type := Response {
  status_code : Z;
  content_length : option string;
  content_range : option string;
  chunks : list (list byte * bool);
  stream_error : option exn
}.

Inductive reply : Type :=
| Reply (r : response)
| Unreachable (e : exn).

Inductive fsop : Type :=
| OpMakedirs | OpCreate | OpTruncate | OpStat | OpOpenRW | OpOpenWO
| OpWrite | OpRead | OpReplace | OpRemove | OpRmdir.

(** The environment of a run: the server, as a function of the history
    and the request, and the filesystem operations that fail with an
    [OSError] (permissions, quota, device errors). *)
Record env : Type := Env {
  serve : list event -> request -> reply;
  fault : fsop -> string -> bool
}.

(** Regular files with their bytes, directories, the history, and the
    shared counter [progress[0]]. *)
Record world : Type := World {
  files : gmap string (list byte);
  dirs : gset string;
  trace : list event;
  progress : Z
}.

Definition set_files (f : gmap string (list byte)) (w : world) : world :=
  World f (dirs w) (trace w) (progress w).
Definition set_dirs (d : gset string) (w : world) : world :=
  World (files w) d (trace w) (progress w).
Definition log (e : event) (w : world) : world :=
  World (files w) (dirs w) (trace w ++ [e]) (progress w).
Definition set_progress (p : Z) (w : world) : world :=
  World (files w) (dirs w) (trace w) p.

(** ** The monad of the program: state and exceptions *)

Definition M (A : Type) : Type := world -> res A * world.

Definition ret {A} (a : A) : M A := fun w => (Ret a, w).
Definition raise {A} (e : exn) : M A := fun w => (Raise e, w).
Definition bind {A B} (m : M A) (k : A -> M B) : M B :=
  fun w => match m w with
           | (Ret a, w') => k a w'
           | (Raise e, w') => (Raise e, w')
           end.

(** [try: m  except Exception as e: h e] *)
Definition try_catch {A} (m : M A) (h : exn -> M A) : M A :=
  fun w => match m w with
           | (Ret a, w') => (Ret a, w')
           | (Raise e, w') => h e w'
           end.

(** The outcome stored in a future: [fut.result()] returns or re-raises it. *)
Definition future {A} (m : M A) : M (res A) :=
  fun w => match m w with
           | (Ret a, w') => (Ret (Ret a), w')
           | (Raise e, w') => (Ret (Raise e), w')
           end.

Declare Scope py_scope.
Delimit Scope py_scope with py.
Notation "x <- m ;; k" := (bind m (fun x => k))
  (at level 100, m at next level, right associativity) : py_scope.
Notation "m ;; k" := (bind m (fun _ => k))
  (at level 100, right associativity) : py_scope.
Local Open Scope py_scope.

Definition os_error (msg : string) : exn := Exn OSError msg.

Section Engine.

Variable E : env.

(** *** Network and clock *)

Definition http (rq : request) : M response :=
  fun w => match serve E (trace w) rq with
           | Reply r => (Ret r, log (EvRequest rq) w)
           | Unreachable e => (Raise e, log (EvRequest rq) w)
           end.

Definition sleep (base : Q) (attempt : Z) : M unit :=
  fun w => (Ret tt, log (EvSleep base attempt) w).

(** [r.raise_for_status()] *)
Definition raise_for_status (r : response) : M unit :=
  if (400 <=? status_code r) && (status_code r <? 600)
  then raise (Exn HTTPError (Py.str (status_code r)))
  else ret tt.

(** The exception, if any, that ends the iteration over the body. *)
Definition end_of_stream (r : response) : M unit :=
  match stream_error r with
  | Some e => raise e
  | None => ret tt
  end.

(** *** Filesystem primitives *)

(** Is [p] an entry below directory [d]? *)
Definition inside (d p : string) : bool := String.prefix (d +:+ "/") p.

Definition dir_is_empty (d : string) (w : world) : bool :=
  forallb (fun p => negb (inside d p)) (map fst (map_to_list (files w)))
  && forallb (fun p => negb (inside d p)) (elements (dirs w)).

(** [os.path.exists(p)]: false when the path cannot be examined. *)
Definition os_path_exists (p : string) : M bool :=
  fun w => (Ret (negb (fault E OpStat p)
                 && (bool_decide (is_Some (files w !! p)) || bool_decide (p ∈ dirs w))), w).

(** [os.path.getsize(p)]; a directory has no byte length here and raises,
    like a missing path. *)
Definition os_path_getsize (p : string) : M Z :=
  fun w => if fault E OpStat p then (Raise (os_error "stat"), w)
           else match files w !! p with
                | Some c => (Ret (Z.of_nat (length c)), w)
                | None => (Raise (os_error "no such file"), w)
                end.

(** [os.makedirs(d, exist_ok=True)] *)
Definition os_makedirs (d : string) : M unit :=
  fun w => if fault E OpMakedirs d then (Raise (os_error "makedirs"), w)
           else if bool_decide (is_Some (files w !! d))
                then (Raise (os_error "file exists"), w)
                else (Ret tt, set_dirs ({[d]} ∪ dirs w) w).

(** [open(p, "wb")]: creates the file or empties it. *)
Definition open_wb (p : string) : M unit :=
  fun w => if fault E OpCreate p || bool_decide (p ∈ dirs w)
           then (Raise (os_error "open"), w)
           else (Ret tt, set_files (<[p := []]> (files w)) w).

(** [open(p, "r+b")]: the file must exist; it is left as it is. *)
Definition open_rpb (p : string) : M unit :=
  fun w => if fault E OpOpenRW p then (Raise (os_error "open"), w)
           else match files w !! p with
                | Some _ => (Ret tt, w)
                | None => (Raise (os_error "no such file"), w)
                end.

(** [f.truncate(n)] on the open file [p]: cut, or extend with zero bytes. *)
Definition truncate (p : string) (n : Z) : M unit :=
  fun w => if fault E OpTruncate p || (n <? 0) then (Raise (os_error "truncate"), w)
           else match files w !! p with
                | Some c => (Ret tt, set_files (<[p := resize (Z.to_nat n) x00 c]> (files w)) w)
                | None => (Raise (os_error "bad file descriptor"), w)
                end.

(** [os.open(p, os.O_WRONLY)]: no creation, no truncation. *)
Definition os_open_wronly (p : string) : M unit :=
  fun w => if fault E OpOpenWO p then (Raise (os_error "open"), w)
           else match files w !! p with
                | Some _ => (Ret tt, w)
                | None => (Raise (os_error "no such file"), w)
                end.

(** The bytes of a file after [data] has been written at offset [off]:
    a gap past the old end reads as zeros, the file grows as needed. *)
Definition splice (c : list byte) (off : nat) (data : list byte) : list byte :=
  resize off x00 c ++ data ++ drop (off + length data) c.

(** [f.write(data)] at the end of the file opened by [open_wb]. *)
Definition file_write (p : string) (data : list byte) : M unit :=
  fun w => if fault E OpWrite p then (Raise (os_error "write"), w)
           else match files w !! p with
                | Some c => (Ret tt, set_files (<[p := c ++ data]> (files w)) w)
                | None => (Raise (os_error "bad file descriptor"), w)
                end.

(** [os.remove(p)] *)
Definition os_remove (p : string) : M unit :=
  fun w => if fault E OpRemove p then (Raise (os_error "remove"), w)
           else match files w !! p with
                | Some _ => (Ret tt, set_files (delete p (files w)) w)
                | None => (Raise (os_error "no such file"), w)
                end.

(** [os.rmdir(d)]: the directory must exist and be empty. *)
Definition os_rmdir (d : string) : M unit :=
  fun w => if fault E OpRmdir d then (Raise (os_error "rmdir"), w)
           else if bool_decide (d ∈ dirs w) && dir_is_empty d w
                then (Ret tt, set_dirs (dirs w ∖ {[d]}) w)
                else (Raise (os_error "rmdir"), w).

(** *** Resume store *)

(** [_read_state]: the decimal number in the file, 0 when the file is
    missing, unreadable, empty or not a number.  The bytes are read as
    ASCII text: white space and digits beyond ASCII, which Python's
    decoder and [int] would accept, count as "not a number". *)
Definition _read_state (state_path : string) : M Z :=
  fun w => if fault E OpRead state_path then (Ret 0, w)
           else match files w !! state_path with
                | None => (Ret 0, w)
                | Some c =>
                    let v := Py.strip (string_of_list_byte c) in
                    match v with
                    | EmptyString => (Ret 0, w)
                    | _ => match Py.int v with
                           | Some n => (Ret n, w)
                           | None => (Ret 0, w)
                           end
                    end
                end.

(** [_write_state]: write [str(value)] to [state_path + ".tmp"], then
    [os.replace] it over [state_path]. *)
Definition _write_state (state_path : string) (value : Z) : M unit :=
  let tmp := state_path +:+ ".tmp" in
  fun w => if fault E OpCreate tmp || bool_decide (tmp ∈ dirs w)
           then (Raise (os_error "open"), w)
           else if fault E OpWrite tmp
           then (Raise (os_error "write"), set_files (<[tmp := []]> (files w)) w)
           else
             let text := list_byte_of_string (Py.str value) in
             if fault E OpReplace state_path || bool_decide (state_path ∈ dirs w)
             then (Raise (os_error "replace"), set_files (<[tmp := text]> (files w)) w)
             else (Ret tt, set_files (<[state_path := text]> (delete tmp (files w))) w).

(** [_write_at]: [os.pwrite(fd, data, offset)] on the descriptor opened
    on [out_path]. *)
Definition _write_at (out_path : string) (offset : Z) (data : list byte) : M unit :=
  fun w => if fault E OpWrite out_path || (offset <? 0)
           then (Raise (os_error "pwrite"), w)
           else match files w !! out_path with
                | Some c => (Ret tt, set_files (<[out_path := splice c (Z.to_nat offset) data]> (files w)) w)
                | None => (Raise (os_error "bad file descriptor"), w)
                end.

(** *** Capability prober *)

(** First half of [probe_size_and_range]: the [HEAD] request. *)
Definition probe_head (url : string) : M Z :=
  try_catch
    (r <- http (Head url) ;;
     raise_for_status r ;;
     match content_length r with
     | None => ret 0
     | Some EmptyString => ret 0
     | Some s => match Py.int s with
                 | Some n => ret n
                 | None => raise (Exn ValueError "invalid literal for int()")
                 end
     end)
    (fun _ => ret 0).

(** Second half: the [GET] with [Range: bytes=0-0]. *)
Definition probe_get (url : string) (size : Z) : M (Z * bool) :=
  try_catch
    (r <- http (Get url (Some (0, 0))) ;;
     let range_ok := (status_code r =? 206) && bool_decide (is_Some (content_range r)) in
     match content_range r with
     | Some cr =>
         if (size =? 0) && Py.has_slash cr then
           let total := Py.strip (Py.after_last_slash cr) in
           if Py.isdigit total then
             match Py.int total with
             | Some n => ret (n, range_ok)
             | None => raise (Exn ValueError "invalid literal for int()")
             end
           else ret (size, range_ok)
         else ret (size, range_ok)
     | None => ret (size, range_ok)
     end)
    (fun _ => ret (size, false)).

Definition probe_size_and_range (url : string) : M (Z * bool) :=
  size <- probe_head url ;;
  probe_get url size.

(** *** Sequential transfer *)

Fixpoint write_all (out : string) (cs : list (list byte * bool)) : M unit :=
  match cs with
  | [] => ret tt
  | (chunk, _) :: cs' =>
      match chunk with
      | [] => write_all out cs'
      | _ => file_write out chunk ;; write_all out cs'
      end
  end.

Definition single_thread_download (url out : string) : M bool :=
  r <- http (Get url None) ;;
  raise_for_status r ;;
  open_wb out ;;
  write_all out (chunks r) ;;
  end_of_stream r ;;
  ret true.

(** *** Segment worker *)

(** The [for chunk in r.iter_content(...)] loop of [download_part_direct];
    returns [local_done]. *)
Fixpoint stream_part (out_path state_path : string) (cs : list (list byte * bool))
    (write_offset local_done : Z) : M Z :=
  match cs with
  | [] => ret local_done
  | (chunk, flush_due) :: cs' =>
      match chunk with
      | [] => stream_part out_path state_path cs' write_offset local_done
      | _ =>
          let n := Z.of_nat (length chunk) in
          _write_at out_path write_offset chunk ;;
          (fun w => (Ret tt, set_progress (progress w + n) w)) ;;
          (if flush_due then _write_state state_path (local_done + n) else ret tt) ;;
          stream_part out_path state_path cs' (write_offset + n) (local_done + n)
      end
  end.

(** The body of the inner [try] of one attempt, from the ranged request
    to the completeness test.  A [Raise] is what [except Exception as e]
    receives. *)
Definition fetch_range (url out_path : string) (start end_ : Z) (state_path : string)
    (done_bytes : Z) : M (bool * string) :=
  let expected := end_ - start + 1 in
  let range_start := start + done_bytes in
  r <- http (Get url (Some (range_start, end_))) ;;
  if negb (status_code r =? 206)
  then ret (false, "range_not_honored_status_" +:+ Py.str (status_code r))
  else match content_range r with
       | None => ret (false, "missing_content_range")
       | Some _ =>
           raise_for_status r ;;
           local_done <- stream_part out_path state_path (chunks r)
                           (start + done_bytes) done_bytes ;;
           end_of_stream r ;;
           _write_state state_path local_done ;;
           v <- _read_state state_path ;;
           if v >=? expected then ret (true, "ok")
           else raise (Exn RuntimeError "short_read")
       end.

(** The [while attempt <= retries] loop.  [fuel] bounds the number of
    iterations; [download_part_direct] supplies [retries + 1], which the
    loop never exceeds because every iteration that does not return
    increments [attempt]. *)
Fixpoint attempts (url out_path : string) (start end_ : Z) (state_path : string)
    (retries : Z) (backoff : Q) (fuel : nat) (attempt : Z) : M (bool * string) :=
  match fuel with
  | O => ret (false, "unknown")
  | S fuel' =>
      if negb (attempt <=? retries) then ret (false, "unknown")
      else
        done_bytes <- _read_state state_path ;;
        if done_bytes >=? end_ - start + 1 then ret (true, "ok")
        else
          try_catch
            (fetch_range url out_path start end_ state_path done_bytes)
            (fun e =>
               let attempt' := attempt + 1 in
               if attempt' >? retries
               then ret (false, "exception: " +:+ exn_str e)
               else sleep backoff attempt' ;;
                    attempts url out_path start end_ state_path retries backoff
                      fuel' attempt')
  end.

(** [download_part_direct]; closing the descriptor in [finally] changes
    nothing in the world. *)
Definition download_part_direct (url out_path : string) (start end_ : Z)
    (state_path : string) (retries : Z) (backoff : Q) : M (bool * string) :=
  os_open_wronly out_path ;;
  attempts url out_path start end_ state_path retries backoff
    (Z.to_nat (retries + 1)) 0.

(** *** Segment planner *)

(** [math.ceil(size / parts)].  The quotient is computed in floating
    point by the program; here it is the exact ceiling. *)
Definition part_size_of (size parts : Z) : Z := - ((- size) / parts).

Fixpoint zeros (n : nat) : string :=
  match n with
  | O => EmptyString
  | S n' => String "0" (zeros n')
  end.

(** [f"{i:04d}"] for [i >= 0] *)
Definition pad4 (i : Z) : string :=
  let s := Py.str i in zeros (4 - String.length s) +:+ s.

(** [os.path.join(state_dir, f"part-{i:04d}.state")] *)
Definition state_path_of (state_dir : string) (i : Z) : string :=
  state_dir +:+ "/" +:+ "part-" +:+ pad4 i +:+ ".state".

(** One planned segment: first byte, last byte, path of its state file. *)
Definition task : Type := (Z * Z * string)%type.

Definition task_start (t : task) : Z := fst (fst t).
Definition task_end (t : task) : Z := snd (fst t).
Definition task_state (t : task) : string := snd t.
Definition task_expected (t : task) : Z := task_end t - task_start t + 1.

(** The [for i in range(parts)] loop that fills [tasks]. *)
Definition plan_tasks (state_dir : string) (size parts : Z) : list task :=
  let part_size := part_size_of size parts in
  map (fun i =>
         let s := i * part_size in
         let e := Z.min (s + part_size - 1) (size - 1) in
         (s, e, state_path_of state_dir i))
      (seqZ 0 parts).

(** *** Orchestrator *)

(** Lines 250-263: make the output file [size] bytes long.  [true] means
    the file is ready; [false] is the [except] branch, after which the
    caller runs the sequential transfer. *)
Definition presize_output (out : string) (size : Z) : M bool :=
  ex <- os_path_exists out ;;
  if negb ex
  then open_wb out ;; truncate out size ;; ret true
  else try_catch
         (sz <- os_path_getsize out ;;
          if negb (sz =? size)
          then open_rpb out ;; truncate out size ;; ret true
          else ret true)
         (fun _ => ret false).

(** Lines 274-279: the counter starts from what the state files record. *)
Fixpoint init_progress (tasks : list task) : M unit :=
  match tasks with
  | [] => ret tt
  | t :: rest =>
      st <- _read_state (task_state t) ;;
      (fun w => (Ret tt, set_progress (progress w + Z.min st (task_expected t)) w)) ;;
      init_progress rest
  end.

(** Lines 287-333: every task runs [download_part_direct]; the loop over
    completed futures folds the outcomes into [ok] and
    [range_not_supported].  The workers run here one after the other in
    plan order: each owns its state file, and the two flags do not depend
    on the order in which futures complete. *)
Fixpoint run_workers (url out : string) (retries : Z) (tasks : list task)
    (ok range_not_supported : bool) : M (bool * bool) :=
  match tasks with
  | [] => ret (ok, range_not_supported)
  | t :: rest =>
      r <- future (download_part_direct url out (task_start t) (task_end t)
                     (task_state t) retries (3 # 2)) ;;
      match r with
      | Ret (success, msg) =>
          if negb success
          then run_workers url out retries rest false
                 (if Py.startswith msg "range_not_honored_status_"
                  then true else range_not_supported)
          else run_workers url out retries rest ok range_not_supported
      | Raise _ => run_workers url out retries rest false range_not_supported
      end
  end.

(** Lines 351-357: every segment's recorded count against its length. *)
Fixpoint verify_parts (tasks : list task) : M bool :=
  match tasks with
  | [] => ret true
  | t :: rest =>
      done <- _read_state (task_state t) ;;
      if done <? task_expected t then ret false else verify_parts rest
  end.

(** Lines 359-366: the final size test; a failing [getsize] is ignored. *)
Definition verify_size (out : string) (size : Z) : M bool :=
  try_catch
    (final_size <- os_path_getsize out ;;
     ret (final_size =? size))
    (fun _ => ret true).

Fixpoint remove_states (tasks : list task) : M unit :=
  match tasks with
  | [] => ret tt
  | t :: rest => os_remove (task_state t) ;; remove_states rest
  end.

(** Lines 368-374: removal of the state files and their directory,
    abandoned silently at the first failure. *)
Definition cleanup (state_dir : string) (tasks : list task) : M unit :=
  try_catch (remove_states tasks ;; os_rmdir state_dir) (fun _ => ret tt).

(** Lines 343-376: what the run returns once all workers have finished. *)
Definition conclude (url out : string) (size : Z) (state_dir : string)
    (tasks : list task) (ok range_not_supported : bool) : M bool :=
  if range_not_supported then single_thread_download url out
  else if negb ok then ret false
  else
    complete <- verify_parts tasks ;;
    if negb complete then ret false
    else
      size_ok <- verify_size out size ;;
      if negb size_ok then ret false
      else cleanup state_dir tasks ;; ret true.

(** Lines 246-263: the state directory, then the output file. *)
Definition prepare_output (out : string) (size : Z) : M bool :=
  os_makedirs (out +:+ ".parts") ;;
  presize_output out size.

(** Lines 246-333: from the creation of the state directory to the end
    of the last worker.  [None] is the fallback taken when the output
    cannot be sized. *)
Definition run_parts (url out : string) (size parts retries : Z)
    : M (option (bool * bool)) :=
  let state_dir := out +:+ ".parts" in
  ready <- prepare_output out size ;;
  if negb ready then ret None
  else
    let tasks := plan_tasks state_dir size parts in
    (fun w => (Ret tt, set_progress 0 w)) ;;
    init_progress tasks ;;
    flags <- run_workers url out retries tasks true false ;;
    ret (Some flags).

Definition parallel_download (url out : string) (parts retries : Z) : M bool :=
  probed <- probe_size_and_range url ;;
  let size := fst probed in
  let range_ok := snd probed in
  if size <=? 0 then single_thread_download url out
  else if negb range_ok || (parts <=? 1) then single_thread_download url out
  else
    flags <- run_parts url out size parts retries ;;
    match flags with
    | None => single_thread_download url out
    | Some (ok, range_not_supported) =>
        conclude url out size (out +:+ ".parts")
          (plan_tasks (out +:+ ".parts") size parts) ok range_not_supported
    end.

End Engine.

(** ** Vocabulary of the specification *)

Definition in_segment (x : Z) (t : task) : Prop := task_start t <= x <= task_end t.

(** Segment [i] is [[i*len, min((i+1)*len - 1, size - 1)]], one per index. *)
Definition follows_formula (size parts : Z) (tasks : list task) : Prop :=
  length tasks = Z.to_nat parts /\
  forall (i : nat) t, tasks !! i = Some t ->
    task_start t = Z.of_nat i * part_size_of size parts /\
    task_end t = Z.min ((Z.of_nat i + 1) * part_size_of size parts - 1) (size - 1).

Definition starts_increasing (tasks : list task) : Prop :=
  forall (i : nat) a b, tasks !! i = Some a -> tasks !! S i = Some b ->
    task_start a < task_start b.

Definition ends_increasing (tasks : list task) : Prop :=
  forall (i : nat) a b, tasks !! i = Some a -> tasks !! S i = Some b ->
    task_end a < task_end b.

Definition contiguous (tasks : list task) : Prop :=
  forall (i : nat) a b, tasks !! i = Some a -> tasks !! S i = Some b ->
    task_start b = task_end a + 1.

Definition non_overlapping (tasks : list task) : Prop :=
  forall (i j : nat) a b x, i <> j -> tasks !! i = Some a -> tasks !! j = Some b ->
    in_segment x a -> ~ in_segment x b.

Definition covers (size : Z) (tasks : list task) : Prop :=
  forall x, 0 <= x < size <-> exists t, In t tasks /\ in_segment x t.

(** The partition invariant in the words of the specification. *)
Definition partition_invariant (size parts : Z) (tasks : list task) : Prop :=
  follows_formula size parts tasks /\
  starts_increasing tasks /\ ends_increasing tasks /\
  contiguous tasks /\ non_overlapping tasks /\ covers size tasks.

(** What the plan guarantees: contiguity holds up to the segment that
    reaches the last byte; a segment that would start past the end of the
    file is empty. *)
Definition partition_of_plan (size parts : Z) (tasks : list task) : Prop :=
  follows_formula size parts tasks /\
  starts_increasing tasks /\
  non_overlapping tasks /\ covers size tasks /\
  (forall (i : nat) a b, tasks !! i = Some a -> tasks !! S i = Some b ->
     task_start b < size -> task_start b = task_end a + 1 /\ task_end a < task_end b) /\
  (forall t, In t tasks -> size <= task_start t -> task_end t < task_start t) /\
  (forall t, last tasks = Some t -> task_end t = size - 1).

(** The [HEAD] request gives no length: it fails in transport, is
    answered with an error status, or carries no [Content-Length]. *)
Definition head_without_length (h : reply) : Prop :=
  match h with
  | Unreachable _ => True
  | Reply r => 400 <= status_code r < 600 \/ content_length r = None
  end.

(** ** Example servers and worlds *)

Definition no_faults : fsop -> string -> bool := fun _ _ => false.

Definition empty_world : world := World ∅ ∅ [] 0.

(** [n] bytes of payload. *)
Definition payload (n : Z) : list byte := repeat x41 (Z.to_nat n).

Definition block (n : Z) : list (list byte * bool) := [(payload n, false)].

(** A server that honours ranges on a resource of [total] bytes. *)
Definition range_server (total : Z) (h : list event) (rq : request) : reply :=
  match rq with
  | Head _ => Reply (Response 200 (Some (Py.str total)) None [] None)
  | Get _ (Some (a, b)) =>
      Reply (Response 206 None
               (Some ("bytes " +:+ Py.str a +:+ "-" +:+ Py.str b +:+ "/" +:+ Py.str total))
               (block (b - a + 1)) None)
  | Get _ None => Reply (Response 200 (Some (Py.str total)) None (block total) None)
  end.

(** Every request is answered with 404. *)
Definition server_404 (h : list event) (rq : request) : reply :=
  Reply (Response 404 None None [] None).

(** [HEAD] fails in transport; the ranged probe is answered properly. *)
Definition server_headless (h : list event) (rq : request) : reply :=
  match rq with
  | Head _ => Unreachable (Exn RequestException "connection refused")
  | _ => range_server 12345 h rq
  end.

(** The probe is answered properly; every other ranged request gets a
    206 reply that has no [Content-Range] header. *)
Definition server_no_content_range (total : Z) (h : list event) (rq : request) : reply :=
  match rq with
  | Get _ (Some (0, 0)) => range_server total h rq
  | Get _ (Some (a, b)) => Reply (Response 206 None None (block (b - a + 1)) None)
  | _ => range_server total h rq
  end.

(** The output file cannot be resized. *)
Definition truncate_fails (out : string) (op : fsop) (p : string) : bool :=
  match op with
  | OpTruncate => String.eqb p out
  | _ => false
  end.

(** A server that honours ranges but ends every stream after 3 bytes. *)
Definition server_short (total : Z) (h : list event) (rq : request) : reply :=
  match rq with
  | Get _ (Some (a, b)) =>
      Reply (Response 206 None
               (Some ("bytes " +:+ Py.str a +:+ "-" +:+ Py.str b +:+ "/" +:+ Py.str total))
               (block 3) None)
  | _ => range_server total h rq
  end.

(** An output file of 10 bytes and a state file ["s"] that records 4
    confirmed bytes. *)
Definition resumed_world : world :=
  World (<["s" := list_byte_of_string "4"]> {[ "o" := payload 10 ]}) ∅ [] 0.

(** An output file of 10 bytes and no state. *)
Definition fresh_world : world := World {[ "o" := payload 10 ]} ∅ [] 0.

(** The probe and the first segment are served properly; any other
    ranged request is answered with 200 and the whole resource. *)
Definition server_mixed (total : Z) (h : list event) (rq : request) : reply :=
  match rq with
  | Get _ (Some (0, _)) => range_server total h rq
  | Get _ (Some _) => Reply (Response 200 (Some (Py.str total)) None (block total) None)
  | _ => range_server total h rq
  end.

(** A 4-byte output file, a state directory, and a state file for the
    first of two segments that records 3 bytes. *)
Definition stale_world : world :=
  World (<[state_path_of "o.parts" 0 := list_byte_of_string "3"]> {[ "o" := payload 4 ]})
        {[ "o.parts" ]} [] 0.

(** The same after both workers have finished: the second state file
    records the 2 bytes of its segment. *)
Definition finished_world : world :=
  World (<[state_path_of "o.parts" 1 := list_byte_of_string "2"]> (files stale_world))
        {[ "o.parts" ]} [] 0.

(** ** Vocabulary for the segment worker *)

(** The confirmed byte count of a segment: what [_read_state] returns. *)
Definition confirmed (E : env) (state_path : string) (w : world) : Z :=
  match fst (_read_state E state_path w) with
  | Ret n => n
  | Raise _ => 0
  end.

Definition is_request (e : event) : bool :=
  match e with
  | EvRequest _ => true
  | EvSleep _ _ => false
  end.

(** Number of requests in a stretch of history. *)
Definition requests_in (t : list event) : Z := Z.of_nat (length (filter is_request t)).

(** A stretch of history made of ranged requests for bytes up to [end_],
    with exactly one pause between consecutive requests, the pauses being
    [backoff ** k], [backoff ** (k+1)], ... in this order. *)
Fixpoint follows_schedule (url : string) (end_ : Z) (backoff : Q) (k : Z)
    (t : list event) : Prop :=
  match t with
  | [] => True
  | EvRequest (Get u (Some (_, e))) :: t' =>
      u = url /\ e = end_ /\
      match t' with
      | [] => True
      | EvSleep b k' :: t'' =>
          b = backoff /\ k' = k /\ follows_schedule url end_ backoff (k + 1) t''
      | _ => False
      end
  | _ => False
  end.

(** Bytes delivered by a sequence of blocks. *)
Definition received (cs : list (list byte * bool)) : Z :=
  Z.of_nat (length (concat (map fst cs))).

(** The two replies [download_part_direct] gives without retrying. *)
Definition is_rejection (msg : string) : Prop :=
  (exists code, msg = "range_not_honored_status_" +:+ Py.str code) \/
  msg = "missing_content_range".

(** ** Vocabulary for proofs *)

(** Operations that leave the history alone. *)
Definition silent {A} (m : M A) : Prop :=
  forall w r w', m w = (r, w') -> trace w' = trace w.

(** No character of [s] is white space. *)
Definition plain (s : string) : Prop :=
  Py.all_chars (fun c => negb (Py.is_space c)) s = true.

(** ** Vocabulary for the orchestrator *)

(** What [os.path.getsize] reports does not contradict [size]: it is
    [size], or the call raises. *)
Definition size_not_refuted (E : env) (out : string) (size : Z) (w : world) : Prop :=
  forall n, fst (os_path_getsize E out w) = Ret n -> n = size.

(** Final integrity in the words of the specification. *)
Definition integrity_as_stated (E : env) (out : string) (size : Z)
    (tasks : list task) (w : world) (r : res bool) : Prop :=
  r = Ret true <->
  (forall t, In t tasks -> confirmed E (task_state t) w = task_expected t) /\
  fst (os_path_getsize E out w) = Ret size.

(** Final integrity as the orchestrator decides it. *)
Definition integrity_of_run (E : env) (out : string) (size : Z)
    (tasks : list task) (ok : bool) (w : world) (r : res bool) : Prop :=
  (r = Ret true \/ r = Ret false) /\
  (r = Ret true <->
   ok = true /\
   (forall t, In t tasks -> task_expected t <= confirmed E (task_state t) w) /\
   size_not_refuted E out size w).

(** Two worlds with the same directories and the same files, the file
    [out] apart. *)
Definition same_except (out : string) (w w' : world) : Prop :=
  dirs w' = dirs w /\ forall p, p <> out -> files w' !! p = files w !! p.

(** Everything below directory [d] is one of the files [paths]. *)
Definition dir_holds_only (d : string) (paths : list string) (w : world) : bool :=
  forallb (fun p => negb (inside d p) || bool_decide (p ∈ paths))
          (map fst (map_to_list (files w)))
  && forallb (fun p => negb (inside d p)) (elements (dirs w)).

(** Operations that change no directory and no file other than [out]. *)
Definition confined {A} (out : string) (m : M A) : Prop :=
  forall w r w', m w = (r, w') -> same_except out w w'.

(** The state file [p] cannot be replaced. *)
Definition replace_fails (p : string) (op : fsop) (q : string) : bool :=
  match op with
  | OpReplace => String.eqb q p
  | _ => false
  end.

(** Every character of [s] is white space. *)
Definition blank (s : string) : Prop := Py.all_chars Py.is_space s = true.

(** The bytes of a response body, block after block. *)
Definition body (r : response) : list byte := concat (map fst (chunks r)).

(** A 10-byte resource whose stream breaks after the first 4 bytes. *)
Definition server_broken (h : list event) (rq : request) : reply :=
  Reply (Response 200 (Some "10") None (block 4)
           (Some (Exn RequestException "connection broken"))).

(** Every run of [m] takes a world to one related to it by [R]. *)
Definition keeps {A} (R : world -> world -> Prop) (m : M A) : Prop :=
  forall w r w', m w = (r, w') -> R w w'.

(** Same directories, and the same files except possibly those in [ps]. *)
Definition touches_only (ps : list string) (w w' : world) : Prop :=
  dirs w' = dirs w /\ forall p, p ∉ ps -> files w' !! p = files w !! p.

(** The shared counter has not gone down. *)
Definition progress_grows (w w' : world) : Prop := progress w <= progress w'.

(** Sum of the planned segment lengths. *)
Definition planned_bytes (tasks : list task) : Z :=
  foldr (fun t acc => task_expected t + acc) 0 tasks.

(** The files a parallel run may write: the output file, the state files
    of the plan and their temporary siblings. *)
Definition run_files (out : string) (tasks : list task) : list string :=
  out :: flat_map (fun t => [task_state t; task_state t +:+ ".tmp"]) tasks.

(** ** Vocabulary for a whole run *)

(** The server serves the resource [data] at [url]: [HEAD] announces its
    length, and every ranged request within the resource is answered with
    206, a [Content-Range] header and exactly the requested bytes, the
    stream ending cleanly.  Block boundaries and flush timing are free,
    and the replies may depend on the history in any other respect. *)
Definition serves (E : env) (url : string) (data : list byte) : Prop :=
  (forall h, exists rh,
     serve E h (Head url) = Reply rh /\
     ~ (400 <= status_code rh < 600) /\
     content_length rh = Some (Py.str (Z.of_nat (length data)))) /\
  (forall h a b, 0 <= a <= b -> b < Z.of_nat (length data) ->
     exists r cr,
       serve E h (Get url (Some (a, b))) = Reply r /\
       status_code r = 206 /\ content_range r = Some cr /\
       stream_error r = None /\
       body r = take (Z.to_nat (b - a + 1)) (drop (Z.to_nat a) data)).

(** No filesystem operation fails for an external reason. *)
Definition fault_free (E : env) : Prop := forall op p, fault E op p = false.

(** The output path is not a directory, and nothing exists at or below
    the path of the state directory. *)
Definition clean_start (out : string) (w : world) : Prop :=
  (out ∉ dirs w) /\
  files w !! (out +:+ ".parts") = None /\
  forall p, inside (out +:+ ".parts") p = true -> files w !! p = None /\ (p ∉ dirs w).

(** [c] is as long as [data] and agrees with it on the first [m] bytes. *)
Definition filled (data c : list byte) (m : Z) : Prop :=
  length c = length data /\
  forall i : nat, (i < Z.to_nat m)%nat -> c !! i = data !! i.

(** Segment [i] of the plan, as the loop of [plan_tasks] builds it. *)
Definition nth_task (state_dir : string) (size parts : Z) (i : Z) : task :=
  (i * part_size_of size parts,
   Z.min (i * part_size_of size parts + part_size_of size parts - 1) (size - 1),
   state_path_of state_dir i).

(** The first byte not covered by segments [0 .. k-1]. *)
Definition covered (size parts k : Z) : Z := Z.min (k * part_size_of size parts) size.

(** The world between two workers of a run that started in [w0], when
    the first [k] segments are done: the output file has its final length
    and holds the resource up to the end of segment [k-1]; the state
    files of the segments done record their lengths; nothing else exists
    below the state directory; every other file is as in [w0]; the
    counter equals the bytes covered. *)
Definition run_inv (out : string) (data : list byte) (parts : Z) (w0 : world)
    (k : Z) (w : world) : Prop :=
  let state_dir := out +:+ ".parts" in
  let size := Z.of_nat (length data) in
  (exists c, files w !! out = Some c /\ filled data c (covered size parts k)) /\
  (forall j, 0 <= j < k ->
     files w !! state_path_of state_dir j
     = Some (list_byte_of_string (Py.str (task_expected (nth_task state_dir size parts j))))) /\
  (forall p, inside state_dir p = true -> is_Some (files w !! p) ->
     exists j, 0 <= j < k /\ p = state_path_of state_dir j) /\
  (forall p, p <> out -> inside state_dir p = false -> files w !! p = files w0 !! p) /\
  dirs w = {[state_dir]} ∪ dirs w0 /\
  progress w = covered size parts k.

(** The last character of a text. *)
Fixpoint last_char (s : string) : option ascii :=
  match s with
  | EmptyString => None
  | String c EmptyString => Some c
  | String _ s' => last_char s'
  end.

(** The server answers every [GET] without [Range] with the whole
    resource [data], not an error status, the stream ending cleanly. *)
Definition serves_whole (E : env) (url : string) (data : list byte) : Prop :=
  forall h, exists r,
    serve E h (Get url None) = Reply r /\
    ~ (400 <= status_code r < 600) /\ stream_error r = None /\ body r = data.

(** ** Connection provider *)

(** A [requests.Session] as [_make_session] configures it: the two
    headers it sets and the adapter it mounts for both schemes. *)
Record session : Type := Session {
  user_agent : string;
  accept_encoding : string;
  pool_connections : Z;
  pool_maxsize : Z;
  max_retries : Z
}.

Definition _make_session (pool_size : Z) : session :=
  Session "fast-downloader/2.0" "identity" pool_size pool_size 0.

(** [get_thread_session]: the thread-local store [_tls] maps a thread to
    its [session] attribute once that has been set. *)
Definition get_thread_session (thread : nat) (pool_size : Z) (tls : gmap nat session)
    : session * gmap nat session :=
  match tls !! thread with
  | Some s => (s, tls)
  | None => let s := _make_session pool_size in (s, <[thread := s]> tls)
  end.

(** The store after a sequence of calls, each by a thread with a pool
    size. *)
Definition after_calls (calls : list (nat * Z)) (tls : gmap nat session)
    : gmap nat session :=
  foldl (fun tls c => snd (get_thread_session (fst c) (snd c) tls)) tls calls.

(** The pool size of the first call made by [thread]. *)
Fixpoint first_pool (thread : nat) (calls : list (nat * Z)) : option Z :=
  match calls with
  | [] => None
  | (t, p) :: rest => if Nat.eqb t thread then Some p else first_pool thread rest
  end.

(** A server that is unreachable until [n] requests have been sent, and
    honours ranges on a resource of [total] bytes from then on. *)
Definition server_flaky (n total : Z) (h : list event) (rq : request) : reply :=
  if requests_in h <? n
  then Unreachable (Exn RequestException "connection reset")
  else range_server total h rq.

(** * Facts *)

Section PlanFacts.

Variables (state_dir : string) (size parts : Z).
Hypothesis size_pos : 0 < size.
Hypothesis parts_pos : 1 <= parts.

Let len := part_size_of size parts.

Lemma part_size_bounds : 1 <= len /\ size <= parts * len /\ parts * (len - 1) < size.
Proof.
  subst len. unfold part_size_of.
  pose proof (Z.div_mod (- size) parts ltac:(lia)) as Hdm.
  pose proof (Z.mod_pos_bound (- size) parts ltac:(lia)) as Hm.
  nia.
Qed.

Lemma plan_lookup (i : nat) (t : task) :
  plan_tasks state_dir size parts !! i = Some t <->
  Z.of_nat i < parts /\
  t = (Z.of_nat i * len, Z.min (Z.of_nat i * len + len - 1) (size - 1),
       state_path_of state_dir (Z.of_nat i)).
Proof.
  unfold plan_tasks. rewrite list_lookup_fmap. fold len.
  destruct (seqZ 0 parts !! i) as [j|] eqn:Hj; simpl.
  - apply lookup_seqZ in Hj as [-> Hlt]. rewrite Z.add_0_l.
    split; [intros [= <-]; split; [lia | done] | intros [_ ->]; done].
  - split; [done |]. intros [Hlt _].
    rewrite lookup_seqZ_lt in Hj by lia. done.
Qed.

Lemma plan_length : length (plan_tasks state_dir size parts) = Z.to_nat parts.
Proof. unfold plan_tasks. by rewrite length_map, length_seqZ. Qed.

End PlanFacts.

Section PlanTheorems.

Variables (state_dir : string) (size parts : Z).
Hypothesis size_pos : 0 < size.
Hypothesis parts_pos : 1 <= parts.

Let len := part_size_of size parts.
Let tasks := plan_tasks state_dir size parts.

Lemma plan_follows_formula : follows_formula size parts tasks.
Proof.
  split; [apply plan_length |].
  intros i t Ht. apply plan_lookup in Ht as [_ ->].
  unfold task_start, task_end; simpl. split; [done | f_equal; lia].
Qed.

Lemma plan_starts_increasing : starts_increasing tasks.
Proof.
  intros i a b Ha Hb.
  apply plan_lookup in Ha as [_ ->]. apply plan_lookup in Hb as [_ ->].
  pose proof (part_size_bounds size parts size_pos parts_pos) as [Hlen _].
  unfold task_start; simpl. nia.
Qed.

Lemma plan_segment_window (i : nat) t x :
  tasks !! i = Some t -> in_segment x t ->
  Z.of_nat i * len <= x < (Z.of_nat i + 1) * len /\ 0 <= x < size.
Proof.
  intros Ht [Hlo Hhi]. apply plan_lookup in Ht as [_ ->].
  unfold task_start, task_end in *; simpl in *.
  pose proof (part_size_bounds size parts size_pos parts_pos) as [Hlen _].
  fold len in Hlen. nia.
Qed.

Lemma plan_non_overlapping : non_overlapping tasks.
Proof.
  intros i j a b x Hij Ha Hb Hxa Hxb.
  destruct (plan_segment_window i a x Ha Hxa) as [Hi _].
  destruct (plan_segment_window j b x Hb Hxb) as [Hj _].
  pose proof (part_size_bounds size parts size_pos parts_pos) as [Hlen _].
  fold len in Hlen.
  assert (Z.of_nat i = Z.of_nat j) by nia. lia.
Qed.

Lemma plan_covers : covers size tasks.
Proof.
  pose proof (part_size_bounds size parts size_pos parts_pos) as (Hlen & Hup & _).
  fold len in Hlen, Hup.
  intros x. split.
  - intros Hx.
    pose proof (Z.div_mod x len ltac:(lia)) as Hdm.
    pose proof (Z.mod_pos_bound x len ltac:(lia)) as Hm.
    assert (Hq : 0 <= x / len) by (apply Z.div_pos; lia).
    assert (Hqp : x / len < parts) by nia.
    set (i := Z.to_nat (x / len)).
    assert (Hi : Z.of_nat i = x / len) by lia.
    exists (Z.of_nat i * len, Z.min (Z.of_nat i * len + len - 1) (size - 1),
            state_path_of state_dir (Z.of_nat i)).
    split.
    + apply list_elem_of_In, list_elem_of_lookup. exists i.
      apply plan_lookup; [done.. |]. split; [lia | done].
    + unfold in_segment, task_start, task_end; simpl. rewrite Hi. nia.
  - intros (t & Hin & Hx).
    apply list_elem_of_In, list_elem_of_lookup in Hin as [i Hi].
    by destruct (plan_segment_window i t x Hi Hx).
Qed.

Lemma plan_contiguous_inside (i : nat) a b :
  tasks !! i = Some a -> tasks !! S i = Some b -> task_start b < size ->
  task_start b = task_end a + 1 /\ task_end a < task_end b.
Proof.
  intros Ha Hb. apply plan_lookup in Ha as [_ ->]. apply plan_lookup in Hb as [_ ->].
  pose proof (part_size_bounds size parts size_pos parts_pos) as [Hlen _].
  fold len in Hlen |- *.
  unfold task_start, task_end; simpl. intros Hs.
  rewrite Nat2Z.inj_succ in *. lia.
Qed.

Lemma plan_outside_empty t :
  In t tasks -> size <= task_start t -> task_end t < task_start t.
Proof.
  intros Hin. apply list_elem_of_In, list_elem_of_lookup in Hin as [i Hi].
  apply plan_lookup in Hi as [_ ->].
  unfold task_start, task_end; simpl. lia.
Qed.

Lemma plan_last_end t : last tasks = Some t -> task_end t = size - 1.
Proof.
  rewrite last_lookup. subst tasks. rewrite plan_length. intros Ht.
  apply plan_lookup in Ht as [_ ->].
  pose proof (part_size_bounds size parts size_pos parts_pos) as (Hlen & Hup & _).
  fold len in Hlen, Hup |- *.
  unfold task_end; simpl.
  replace (Z.of_nat (Nat.pred (Z.to_nat parts))) with (parts - 1) by lia.
  nia.
Qed.

End PlanTheorems.




(** ** Capability prober *)

Lemma probe_head_returns E url w :
  exists size, probe_head E url w = (Ret size, log (EvRequest (Head url)) w).
Proof.
  unfold probe_head, try_catch, bind, http, raise_for_status, ret, raise.
  repeat case_match; simplify_eq; eauto.
Qed.

Lemma probe_head_unknown E url w :
  head_without_length (serve E (trace w) (Head url)) ->
  probe_head E url w = (Ret 0, log (EvRequest (Head url)) w).
Proof.
  unfold head_without_length, probe_head, try_catch, bind, http, raise_for_status, ret, raise.
  intros H. repeat case_match; simplify_eq; eauto; destruct H; try lia; congruence.
Qed.

(** C6: [probe_size_and_range] always returns a pair and never raises.
    A transport failure of the ranged request gives [range_ok = False], and
    with a failing [HEAD] as well the size is 0.  [range_ok] is true only
    if the [bytes=0-0] request was answered with status 206 and a
    [Content-Range] header.  When the [HEAD] request fails or has no
    length, the size is the total parsed after the slash of the
    [Content-Range] header of the ranged reply. *)
Theorem probe_never_raises E url w :
  let h := serve E (trace w) (Head url) in
  let g := serve E (trace w ++ [EvRequest (Head url)]) (Get url (Some (0, 0))) in
  exists size range_ok w',
    probe_size_and_range E url w = (Ret (size, range_ok), w') /\
    (forall e, g = Unreachable e -> range_ok = false) /\
    (forall e e', h = Unreachable e -> g = Unreachable e' -> size = 0) /\
    (range_ok = true ->
       exists r cr, g = Reply r /\ status_code r = 206 /\ content_range r = Some cr) /\
    (forall r cr n,
       head_without_length h -> g = Reply r -> content_range r = Some cr ->
       Py.has_slash cr = true ->
       Py.isdigit (Py.strip (Py.after_last_slash cr)) = true ->
       Py.int (Py.strip (Py.after_last_slash cr)) = Some n ->
       size = n).
Proof.
  intros h g. unfold probe_size_and_range, bind.
  destruct (probe_head_returns E url w) as [s0 Hh]. rewrite Hh.
  assert (Hunk : head_without_length h -> s0 = 0).
  { intros Hu. apply (probe_head_unknown E url w) in Hu. congruence. }
  unfold probe_get, try_catch, bind, http; simpl trace. fold g.
  destruct g as [r|e] eqn:Hg.
  - destruct (content_range r) as [cr|] eqn:Hcr.
    + destruct ((s0 =? 0) && Py.has_slash cr) eqn:Hc;
        [destruct (Py.isdigit (Py.strip (Py.after_last_slash cr))) eqn:Hd;
         [destruct (Py.int (Py.strip (Py.after_last_slash cr))) as [n|] eqn:Hn |] |];
        (eexists _, _, _; split; [reflexivity |]);
        repeat split; try congruence;
        try (intros [Hst%Z.eqb_eq _]%andb_true_iff; by exists r, cr).
      intros r' cr' n' Hu [= <-] Hcr'. rewrite Hcr in Hcr'. simplify_eq.
      intros Hsl. rewrite (Hunk Hu), Hsl in Hc. done.
    + eexists _, _, _. split; [reflexivity |].
      repeat split; try congruence.
      intros [_ [? ?]%bool_decide_eq_true]%andb_true_iff. done.
  - eexists _, _, _. split; [reflexivity |].
    repeat split; try congruence.
    intros e1 e2 Hu _. apply Hunk. subst h. by rewrite Hu.
Qed.

Lemma probe_never_raises_witness :
  exists ok w',
    probe_size_and_range (Env server_headless no_faults) "u" empty_world
    = (Ret (12345, ok), w').
Proof.
  destruct (probe_never_raises (Env server_headless no_faults) "u" empty_world)
    as (size & ok & w' & Heq & _ & _ & _ & Hrec).
  exists ok, w'.
  rewrite <- (Hrec _ _ 12345 I eq_refl eq_refl eq_refl eq_refl eq_refl).
  exact Heq.
Defined.

(** ** Pre-sizing of the output file *)

(** C10: when the output file exists, can be examined, and already has
    the probed length, [presize_output] reports it ready and leaves the
    world as it found it; together with the creation of the state
    directory before it, it changes no file, so the bytes an earlier run
    wrote are all still there when the workers start. *)
Theorem presize_keeps_sized_file E out size w c :
  files w !! out = Some c ->
  Z.of_nat (length c) = size ->
  fault E OpStat out = false ->
  presize_output E out size w = (Ret true, w) /\
  (forall r w', prepare_output E out size w = (r, w') ->
     files w' = files w /\ files w' !! out = Some c).
Proof.
  intros Hc Hlen Hst.
  assert (Hframe : forall w1, files w1 = files w ->
            presize_output E out size w1 = (Ret true, w1)).
  { intros w1 Hw1.
    unfold presize_output, bind, try_catch, os_path_exists, os_path_getsize, ret.
    rewrite Hst, Hw1, Hc. simpl. rewrite ?Hst, ?Hw1, ?Hc. simpl.
    subst size. by rewrite Z.eqb_refl. }
  split; [by apply Hframe |].
  intros r w' Hrun. unfold prepare_output, bind, os_makedirs in Hrun.
  destruct (fault E OpMakedirs _); [by simplify_eq |].
  destruct (bool_decide _); [by simplify_eq |].
  rewrite Hframe in Hrun by done. by simplify_eq.
Qed.

Lemma presize_keeps_sized_file_witness :
  let w := World {[ "o" := payload 5 ]} ∅ [] 0 in
  presize_output (Env (range_server 5) no_faults) "o" 5 w = (Ret true, w).
Proof.
  intros w.
  exact (proj1 (presize_keeps_sized_file (Env (range_server 5) no_faults) "o" 5 w
                  (payload 5) eq_refl eq_refl eq_refl)).
Defined.

(** ** Faults that escape the engine *)

(** C2 (failing input): a server that answers every request with 404.
    The probe finds no size, the run goes to [single_thread_download],
    and [raise_for_status] there raises to the caller of
    [parallel_download]. *)
Theorem sequential_transfer_raises :
  fst (parallel_download (Env server_404 no_faults) "u" "o" 8 5 empty_world)
  = Raise (Exn HTTPError "404").
Proof. vm_compute. reflexivity. Qed.

(** C7 (failing input): the output file does not exist yet and cannot be
    brought to the probed length.  The [OSError] of the creating branch
    reaches the caller; no sequential transfer is started. *)
Theorem presize_create_failure_raises :
  let run := parallel_download (Env (range_server 5) (truncate_fails "o")) "u" "o" 2 5
               empty_world in
  fst run = Raise (os_error "truncate") /\
  trace (snd run) = [EvRequest (Head "u"); EvRequest (Get "u" (Some (0, 0)))].
Proof. vm_compute. split; reflexivity. Qed.

(** C3 (failing input): the probe sees 206 with [Content-Range], the
    segment requests get 206 without the header.  Every worker returns
    ["missing_content_range"] at once, the run returns [False], and the
    sequential transfer (a [GET] without [Range]) is never started. *)
Theorem missing_content_range_no_fallback :
  let run := parallel_download (Env (server_no_content_range 6) no_faults) "u" "o" 2 5
               empty_world in
  fst run = Ret false /\
  trace (snd run) = [EvRequest (Head "u"); EvRequest (Get "u" (Some (0, 0)));
                     EvRequest (Get "u" (Some (0, 2))); EvRequest (Get "u" (Some (3, 5)))].
Proof. vm_compute. split; reflexivity. Qed.

(** ** The monad and the primitives *)

Lemma bind_inv {A B} (m : M A) (k : A -> M B) w r w' :
  bind m k w = (r, w') ->
  (exists a w1, m w = (Ret a, w1) /\ k a w1 = (r, w')) \/
  (exists e, m w = (Raise e, w') /\ r = Raise e).
Proof.
  unfold bind. destruct (m w) as [[a|e] w1]; intros H.
  - left. eauto.
  - right. simplify_eq. eauto.
Qed.

Lemma read_state_eq E p w : _read_state E p w = (Ret (confirmed E p w), w).
Proof.
  unfold confirmed. destruct (_read_state E p w) as [r w1] eqn:H.
  unfold _read_state in H. repeat case_match; simplify_eq/=; done.
Qed.

Lemma silent_ret {A} (a : A) : silent (ret a).
Proof. by intros w r w' [= <- <-]. Qed.

Lemma silent_raise {A} e : silent (@raise A e).
Proof. by intros w r w' [= <- <-]. Qed.

Lemma silent_bind {A B} (m : M A) (k : A -> M B) :
  silent m -> (forall a, silent (k a)) -> silent (bind m k).
Proof.
  intros Hm Hk w r w' H. apply bind_inv in H as [(a & w1 & H1 & H2) | (e & H1 & _)].
  - rewrite (Hk _ _ _ _ H2). eauto.
  - eauto.
Qed.

Lemma silent_try_catch {A} (m : M A) h :
  silent m -> (forall e, silent (h e)) -> silent (try_catch m h).
Proof.
  intros Hm Hh w r w'. unfold try_catch.
  destruct (m w) as [[a|e] w1] eqn:H1; intros H.
  - simplify_eq. eauto.
  - rewrite (Hh _ _ _ _ H). eauto.
Qed.

Ltac silent_prim :=
  unfold silent; intros ? ? ?; cbv beta zeta delta [_read_state _write_state _write_at os_remove os_rmdir
    os_path_getsize os_path_exists os_makedirs open_wb open_rpb truncate
    os_open_wronly file_write raise_for_status end_of_stream ret raise];
  intros; repeat case_match; simplify_eq; done.

Lemma silent_read_state E p : silent (_read_state E p).
Proof. silent_prim. Qed.
Lemma silent_write_state E p v : silent (_write_state E p v).
Proof. silent_prim. Qed.
Lemma silent_write_at E p o d : silent (_write_at E p o d).
Proof. silent_prim. Qed.
Lemma silent_os_remove E p : silent (os_remove E p).
Proof. silent_prim. Qed.
Lemma silent_os_rmdir E p : silent (os_rmdir E p).
Proof. silent_prim. Qed.
Lemma silent_getsize E p : silent (os_path_getsize E p).
Proof. silent_prim. Qed.
Lemma silent_exists E p : silent (os_path_exists E p).
Proof. silent_prim. Qed.
Lemma silent_makedirs E p : silent (os_makedirs E p).
Proof. silent_prim. Qed.
Lemma silent_open_wb E p : silent (open_wb E p).
Proof. silent_prim. Qed.
Lemma silent_open_rpb E p : silent (open_rpb E p).
Proof. silent_prim. Qed.
Lemma silent_truncate E p n : silent (truncate E p n).
Proof. silent_prim. Qed.
Lemma silent_open_wronly E p : silent (os_open_wronly E p).
Proof. silent_prim. Qed.
Lemma silent_file_write E p d : silent (file_write E p d).
Proof. silent_prim. Qed.
Lemma silent_raise_for_status r : silent (raise_for_status r).
Proof. silent_prim. Qed.
Lemma silent_end_of_stream r : silent (end_of_stream r).
Proof. silent_prim. Qed.
Lemma silent_set_progress (f : world -> Z) :
  silent (fun w => (Ret tt, set_progress (f w) w)).
Proof. by intros w r w' [= <- <-]. Qed.

Create HintDb silent.
#[export] Hint Resolve silent_ret silent_raise silent_read_state silent_write_state
  silent_write_at silent_os_remove silent_os_rmdir silent_getsize silent_exists
  silent_makedirs silent_open_wb silent_open_rpb silent_truncate silent_open_wronly
  silent_file_write silent_raise_for_status silent_end_of_stream silent_set_progress
  : silent.

Ltac silent_step :=
  repeat first
    [ apply silent_bind; [| intros ?]
    | apply silent_try_catch; [| intros ?]
    | progress eauto with silent
    | match goal with
      | |- silent (if ?b then _ else _) => destruct b
      | |- silent (match ?x with _ => _ end) => destruct x
      end ].

Lemma silent_stream_part E out sp cs off d : silent (stream_part E out sp cs off d).
Proof.
  revert off d. induction cs as [|[chunk due] cs IH]; intros off d; simpl.
  - eauto with silent.
  - destruct chunk as [|b chunk]; [apply IH |]. silent_step.
Qed.
#[export] Hint Resolve silent_stream_part : silent.

Lemma http_inv E rq w r w' :
  http E rq w = (r, w') ->
  w' = log (EvRequest rq) w /\
  match r with
  | Ret rsp => serve E (trace w) rq = Reply rsp
  | Raise e => serve E (trace w) rq = Unreachable e
  end.
Proof. unfold http. destruct (serve E (trace w) rq); intros [= <- <-]; done. Qed.

(** ** Decimal text *)

Lemma lstrip_plain s : plain s -> Py.lstrip s = s.
Proof.
  destruct s as [|c s]; [done |]. unfold plain; simpl.
  intros [Hc _]%andb_true_iff. apply negb_true_iff in Hc. by rewrite Hc.
Qed.

Lemma rstrip_plain s : plain s -> Py.rstrip s = s.
Proof.
  induction s as [|c s IH]; [done |]. unfold plain; simpl.
  intros [Hc Hs]%andb_true_iff. apply negb_true_iff in Hc.
  rewrite (IH Hs). destruct s; [by rewrite Hc | done].
Qed.

Lemma strip_plain s : plain s -> Py.strip s = s.
Proof. intros H. unfold Py.strip. by rewrite lstrip_plain, rstrip_plain. Qed.

Lemma plain_uint d : plain (NilEmpty.string_of_uint d).
Proof. unfold plain. induction d; simpl; auto. Qed.

Lemma digits_value_uint d :
  d <> Decimal.Nil ->
  Py.digits_value (NilEmpty.string_of_uint d) = Some (Z.of_uint d).
Proof.
  intros Hd. unfold Py.digits_value.
  rewrite NilEmpty.usu. destruct d; simpl; congruence.
Qed.

Lemma int_uint d :
  d <> Decimal.Nil ->
  Py.int (NilEmpty.string_of_uint d) = Some (Z.of_uint d).
Proof.
  intros Hd. unfold Py.int. rewrite strip_plain by apply plain_uint.
  rewrite <- (digits_value_uint d Hd). by destruct d.
Qed.

Lemma nilzero_uint d :
  d <> Decimal.Nil -> NilZero.string_of_uint d = NilEmpty.string_of_uint d.
Proof. by destruct d. Qed.

Lemma str_pos p : Py.str (Z.pos p) = NilEmpty.string_of_uint (Pos.to_uint p).
Proof. apply nilzero_uint, DecimalPos.Unsigned.to_uint_nonnil. Qed.

Lemma str_neg p :
  Py.str (Z.neg p) = String "-" (NilEmpty.string_of_uint (Pos.to_uint p)).
Proof.
  unfold Py.str; simpl. f_equal.
  apply nilzero_uint, DecimalPos.Unsigned.to_uint_nonnil.
Qed.

Lemma str_plain z : plain (Py.str z).
Proof.
  destruct z as [|p|p]; [done | |].
  - rewrite str_pos. apply plain_uint.
  - rewrite str_neg. apply (plain_uint (Pos.to_uint p)).
Qed.

Lemma str_nonempty z : Py.str z <> "".
Proof.
  destruct z as [|p|p]; [done | | by rewrite str_neg].
  rewrite str_pos. pose proof (DecimalPos.Unsigned.to_uint_nonnil p).
  by destruct (Pos.to_uint p).
Qed.

(** [int(str(z)) == z] *)
Lemma int_str z : Py.int (Py.str z) = Some z.
Proof.
  destruct z as [|p|p]; [done | |].
  - rewrite str_pos, int_uint by apply DecimalPos.Unsigned.to_uint_nonnil.
    unfold Z.of_uint. by rewrite DecimalPos.Unsigned.of_to.
  - unfold Py.int. rewrite strip_plain by apply str_plain.
    rewrite str_neg.
    rewrite digits_value_uint by apply DecimalPos.Unsigned.to_uint_nonnil.
    unfold Z.of_uint. by rewrite DecimalPos.Unsigned.of_to.
Qed.

Lemma write_state_confirmed E p v w w' :
  _write_state E p v w = (Ret tt, w') ->
  fault E OpRead p = false ->
  confirmed E p w' = v.
Proof.
  unfold _write_state. intros H Hr.
  repeat case_match; simplify_eq.
  unfold confirmed, _read_state. rewrite Hr; simpl.
  rewrite lookup_insert_eq, string_of_list_byte_of_string.
  rewrite strip_plain by apply str_plain.
  pose proof (str_nonempty v). rewrite int_str.
  by destruct (Py.str v).
Qed.

(** ** Segment worker *)

Lemma requests_in_app t1 t2 : requests_in (t1 ++ t2) = requests_in t1 + requests_in t2.
Proof. unfold requests_in. rewrite filter_app, length_app. lia. Qed.

Lemma requests_in_nonneg t : 0 <= requests_in t.
Proof. unfold requests_in. lia. Qed.

Lemma stream_part_count E out sp cs off d w d' w' :
  stream_part E out sp cs off d w = (Ret d', w') -> d' = d + received cs.
Proof.
  revert off d w. induction cs as [|[chunk due] cs IH]; intros off d w; simpl.
  - intros [= <- <-]. unfold received; simpl. lia.
  - assert (Hr : received ((chunk, due) :: cs) = Z.of_nat (length chunk) + received cs).
    { unfold received; simpl. rewrite length_app. lia. }
    rewrite Hr. destruct chunk as [|b chunk].
    + intros H%IH. simpl in *. lia.
    + intros H.
      repeat (apply bind_inv in H as [(? & ? & _ & H) | (? & _ & ?)]; [| done]).
      apply IH in H. lia.
Qed.

Section Worker.

Variables (E : env) (url out : string) (start end_ : Z) (sp : string).
Variables (retries : Z) (backoff : Q).

Let expected : Z := end_ - start + 1.
Let request_from (K : Z) : event := EvRequest (Get url (Some (start + K, end_))).

(** One pass through the inner [try]: exactly one request goes out, for
    the bytes from [start + K] to [end_]; a success has been checked
    against the state file; a failure that is returned rather than raised
    is one of the two rejections. *)
Lemma fetch_range_inv K w r w' :
  fetch_range E url out start end_ sp K w = (r, w') ->
  trace w' = trace w ++ [request_from K] /\
  match r with
  | Ret (true, msg) => msg = "ok" /\ expected <= confirmed E sp w'
  | Ret (false, msg) => is_rejection msg
  | Raise _ => True
  end.
Proof.
  unfold fetch_range. intros H.
  apply bind_inv in H as [(rsp & w1 & Hq & H) | (e & Hq & ->)];
    apply http_inv in Hq as [-> Hs]; [| done].
  destruct (negb (status_code rsp =? 206)).
  { unfold ret in H. simplify_eq. split; [done |]. left. eauto. }
  destruct (content_range rsp) as [cr|]; [| unfold ret in H; simplify_eq; split; [done | by right]].
  assert (Hsil : silent
    (raise_for_status rsp ;;
     local_done <- stream_part E out sp (chunks rsp) (start + K) K ;;
     end_of_stream rsp ;; _write_state E sp local_done ;; ret tt)).
  { silent_step. }
  apply bind_inv in H as [(? & w2 & H2 & H) | (e & H2 & ->)];
    [| split; [| done]; by rewrite (silent_raise_for_status _ _ _ _ H2)].
  apply bind_inv in H as [(d & w3 & H3 & H) | (e & H3 & ->)];
    [| split; [| done];
       by rewrite (silent_stream_part _ _ _ _ _ _ _ _ _ H3),
                  (silent_raise_for_status _ _ _ _ H2)].
  apply bind_inv in H as [(? & w4 & H4 & H) | (e & H4 & ->)];
    [| split; [| done];
       by rewrite (silent_end_of_stream _ _ _ _ H4),
                  (silent_stream_part _ _ _ _ _ _ _ _ _ H3),
                  (silent_raise_for_status _ _ _ _ H2)].
  assert (Ht4 : trace w4 = trace w ++ [request_from K]).
  { by rewrite (silent_end_of_stream _ _ _ _ H4),
               (silent_stream_part _ _ _ _ _ _ _ _ _ H3),
               (silent_raise_for_status _ _ _ _ H2). }
  apply bind_inv in H as [(? & w5 & H5 & H) | (e & H5 & ->)];
    [| split; [| done]; by rewrite (silent_write_state _ _ _ _ _ _ H5)].
  rewrite <- (silent_write_state _ _ _ _ _ _ H5) in Ht4.
  unfold bind in H. rewrite read_state_eq in H. cbv zeta in H.
  destruct (confirmed E sp w5 >=? end_ - start + 1) eqn:Hc; unfold ret, raise in H; simplify_eq; [| done].
  split; [done |]. split; [done | subst expected; lia].
Qed.

(** The loop, for a budget that covers the iterations still allowed. *)
Lemma attempts_inv fuel : forall attempt w r w',
  attempt <= retries ->
  retries + 1 - attempt <= Z.of_nat fuel ->
  attempts E url out start end_ sp retries backoff fuel attempt w = (r, w') ->
  exists new,
    trace w' = trace w ++ new /\
    follows_schedule url end_ backoff (attempt + 1) new /\
    requests_in new <= retries + 1 - attempt /\
    match r with
    | Ret (true, msg) => msg = "ok" /\ expected <= confirmed E sp w'
    | Ret (false, msg) =>
        is_rejection msg \/
        (requests_in new = retries + 1 - attempt /\
         exists e K w_last,
           fetch_range E url out start end_ sp K w_last = (Raise e, w') /\
           msg = "exception: " +:+ exn_str e)
    | Raise _ => False
    end.
Proof.
  induction fuel as [|fuel IH]; intros attempt w r w' Ha Hf; [lia |].
  simpl. destruct (attempt <=? retries) eqn:Hle; [| lia]. simpl.
  unfold bind at 1. rewrite read_state_eq.
  destruct (confirmed E sp w >=? end_ - start + 1) eqn:Hc.
  { intros [= <- <-]. exists []. rewrite app_nil_r.
    split; [done |]. split; [done |].
    split; [unfold requests_in; simpl; lia |]. split; [done | subst expected; lia]. }
  unfold try_catch.
  destruct (fetch_range E url out start end_ sp (confirmed E sp w) w)
    as [[[b msg]|e] w1] eqn:Hfetch;
    pose proof (fetch_range_inv _ _ _ _ Hfetch) as [Ht Hr].
  - intros [= <- <-]. exists [request_from (confirmed E sp w)].
    split; [done |]. split; [done |].
    split; [unfold requests_in; simpl; lia |].
    destruct b; [done | by left].
  - destruct (attempt + 1 >? retries) eqn:Hex.
    + intros [= <- <-]. exists [request_from (confirmed E sp w)].
      split; [done |]. split; [done |].
      split; [unfold requests_in; simpl; lia |].
      right. split; [unfold requests_in; simpl; lia |]. eauto.
    + unfold bind at 1, sleep.
      intros Hrec. apply IH in Hrec as (new & Ht' & Hs & Hn & Hout); [| lia..].
      exists (request_from (confirmed E sp w) :: EvSleep backoff (attempt + 1) :: new).
      split.
      { rewrite Ht'. simpl. rewrite Ht. by rewrite <- !app_assoc. }
      split; [done |].
      assert (Hcount : requests_in (request_from (confirmed E sp w)
                         :: EvSleep backoff (attempt + 1) :: new) = 1 + requests_in new).
      { change (requests_in ([request_from (confirmed E sp w);
                               EvSleep backoff (attempt + 1)] ++ new)
                = 1 + requests_in new).
        by rewrite requests_in_app. }
      rewrite Hcount. split; [lia |].
      destruct r as [[[|] msg]|]; [done | | done].
      destruct Hout as [Hrej | [Hn' Hlast]]; [by left | right].
      split; [lia | done].
Qed.

Lemma attempts_extends fuel : forall attempt w r w',
  attempts E url out start end_ sp retries backoff fuel attempt w = (r, w') ->
  exists t, trace w' = trace w ++ t.
Proof.
  induction fuel as [|fuel IH]; intros attempt w r w'; simpl.
  { intros [= <- <-]. exists []. by rewrite app_nil_r. }
  destruct (negb (attempt <=? retries)).
  { intros [= <- <-]. exists []. by rewrite app_nil_r. }
  unfold bind at 1. rewrite read_state_eq.
  destruct (confirmed E sp w >=? end_ - start + 1).
  { intros [= <- <-]. exists []. by rewrite app_nil_r. }
  unfold try_catch.
  destruct (fetch_range E url out start end_ sp (confirmed E sp w) w)
    as [[a|e] w1] eqn:Hfetch;
    pose proof (fetch_range_inv _ _ _ _ Hfetch) as [Ht _].
  { intros [= <- <-]. eauto. }
  destruct (attempt + 1 >? retries).
  { intros [= <- <-]. eauto. }
  unfold bind at 1, sleep. intros [t Hrec]%IH.
  rewrite Hrec. simpl. rewrite Ht, <- !app_assoc. eauto.
Qed.

(** An iteration that finds the segment complete returns at once. *)
Lemma attempts_complete fuel attempt w :
  attempt <= retries -> expected <= confirmed E sp w ->
  attempts E url out start end_ sp retries backoff (S fuel) attempt w
  = (Ret (true, "ok"), w).
Proof.
  intros Ha Hc. simpl.
  destruct (attempt <=? retries) eqn:Hle; [| lia]. simpl.
  unfold bind. rewrite read_state_eq.
  destruct (confirmed E sp w >=? end_ - start + 1) eqn:Hge; [done |].
  subst expected. lia.
Qed.

(** An iteration that finds [K] bytes confirmed asks for the rest. *)
Lemma attempts_first_request fuel attempt w r w' :
  attempt <= retries -> confirmed E sp w < expected ->
  attempts E url out start end_ sp retries backoff (S fuel) attempt w = (r, w') ->
  exists rest, trace w' = trace w ++ request_from (confirmed E sp w) :: rest.
Proof.
  intros Ha Hc. simpl.
  destruct (attempt <=? retries) eqn:Hle; [| lia]. simpl.
  unfold bind at 1. rewrite read_state_eq.
  destruct (confirmed E sp w >=? end_ - start + 1) eqn:Hge; [subst expected; lia |].
  unfold try_catch.
  destruct (fetch_range E url out start end_ sp (confirmed E sp w) w)
    as [[a|e] w1] eqn:Hfetch;
    pose proof (fetch_range_inv _ _ _ _ Hfetch) as [Ht _].
  { intros [= <- <-]. eauto. }
  destruct (attempt + 1 >? retries).
  { intros [= <- <-]. eauto. }
  unfold bind at 1, sleep. intros [t Hrec]%attempts_extends.
  rewrite Hrec. simpl. rewrite Ht, <- !app_assoc. simpl. eauto.
Qed.

(** A stream that ends early: the blocks are written, the count is
    flushed, and the attempt raises [short_read]. *)
Lemma fetch_range_short_read w rsp cr d w2 w3 :
  let K := confirmed E sp w in
  serve E (trace w) (Get url (Some (start + K, end_))) = Reply rsp ->
  status_code rsp = 206 -> content_range rsp = Some cr -> stream_error rsp = None ->
  stream_part E out sp (chunks rsp) (start + K) K (log (request_from K) w) = (Ret d, w2) ->
  _write_state E sp d w2 = (Ret tt, w3) ->
  fault E OpRead sp = false ->
  d < expected ->
  d = K + received (chunks rsp) /\
  confirmed E sp w3 = d /\
  fetch_range E url out start end_ sp K w = (Raise (Exn RuntimeError "short_read"), w3).
Proof.
  intros K Hs H206 Hcr Herr Hstream Hflush Hread Hd.
  split; [by apply stream_part_count in Hstream |].
  pose proof (write_state_confirmed _ _ _ _ _ Hflush Hread) as Hconf.
  split; [done |].
  unfold fetch_range, bind at 1, http. rewrite Hs, H206, Hcr. simpl.
  unfold bind at 1, raise_for_status. rewrite H206. simpl.
  unfold bind at 1. fold (request_from K). unfold ret at 1. rewrite Hstream.
  unfold bind at 1, end_of_stream. rewrite Herr. unfold ret at 1.
  unfold bind at 1. rewrite Hflush.
  unfold bind. rewrite read_state_eq, Hconf.
  destruct (d >=? end_ - start + 1) eqn:Hge; [subst expected; lia | done].
Qed.

End Worker.

Lemma confirmed_same_files E p w1 w2 :
  files w1 = files w2 -> confirmed E p w1 = confirmed E p w2.
Proof.
  intros Hf. unfold confirmed, _read_state. rewrite Hf.
  repeat case_match; simplify_eq/=; done.
Qed.

Lemma download_part_direct_inv E url out start end_ sp retries backoff w r w' :
  download_part_direct E url out start end_ sp retries backoff w = (r, w') ->
  (exists e, r = Raise e /\ w' = w) \/
  (os_open_wronly E out w = (Ret tt, w) /\
   attempts E url out start end_ sp retries backoff (Z.to_nat (retries + 1)) 0 w = (r, w')).
Proof.
  unfold download_part_direct, bind.
  destruct (os_open_wronly E out w) as [[[]|e] w1] eqn:Ho.
  - assert (w1 = w) as ->.
    { unfold os_open_wronly in Ho. repeat case_match; by simplify_eq. }
    intros H. right. done.
  - assert (w1 = w) as ->.
    { unfold os_open_wronly in Ho. repeat case_match; by simplify_eq. }
    intros [= <- <-]. left. eauto.
Qed.





(** ** Verification after the workers *)

Lemma verify_parts_spec E tasks w :
  exists b, verify_parts E tasks w = (Ret b, w) /\
    (b = true <->
     forall t, In t tasks -> task_expected t <= confirmed E (task_state t) w).
Proof.
  induction tasks as [|t tasks IH]; simpl.
  - exists true. split; [done |]. split; [by intros _ t [] | done].
  - unfold bind. rewrite read_state_eq.
    destruct (confirmed E (task_state t) w <? task_expected t) eqn:Hlt.
    + exists false. split; [done |]. split; [done |].
      intros H. specialize (H t (or_introl eq_refl)). lia.
    + destruct IH as (b & -> & Hb). exists b. split; [done |].
      rewrite Hb. split.
      * intros H t' [<- | Hin]; [lia | by apply H].
      * intros H t' Hin. apply H. by right.
Qed.

Lemma verify_size_spec E out size w :
  exists b, verify_size E out size w = (Ret b, w) /\
    (b = true <-> size_not_refuted E out size w).
Proof.
  unfold verify_size, try_catch, bind, size_not_refuted.
  destruct (os_path_getsize E out w) as [[n|e] w1] eqn:Hg.
  - assert (w1 = w) as ->.
    { unfold os_path_getsize in Hg. repeat case_match; by simplify_eq. }
    exists (n =? size). split; [done |]. simpl. split.
    + intros Hn%Z.eqb_eq n' [= <-]. done.
    + intros H. apply Z.eqb_eq. by apply H.
  - assert (w1 = w) as ->.
    { unfold os_path_getsize in Hg. repeat case_match; by simplify_eq. }
    exists true. split; [done |]. simpl. done.
Qed.

Lemma cleanup_returns E state_dir tasks w :
  exists w', cleanup E state_dir tasks w = (Ret tt, w').
Proof.
  unfold cleanup, try_catch.
  destruct (bind _ _ w) as [[[]|e] w1]; eauto.
Qed.




(** ** Names of the state files *)

Lemma string_length_app (s t : string) :
  String.length (s +:+ t) = (String.length s + String.length t)%nat.
Proof. induction s as [|c s IH]; simpl; [done | by rewrite IH]. Qed.

Lemma append_cancel_r (t s1 s2 : string) : s1 +:+ t = s2 +:+ t -> s1 = s2.
Proof.
  revert s2. induction s1 as [|c s1 IH]; intros [|c' s2] H; simpl in *.
  - done.
  - apply (f_equal String.length) in H. simpl in H.
    rewrite ?string_length_app in H. simpl in H. lia.
  - apply (f_equal String.length) in H. simpl in H.
    rewrite ?string_length_app in H. simpl in H. lia.
  - injection H as -> H. f_equal. by apply IH.
Qed.

Lemma zeros_uint n u :
  zeros n +:+ NilEmpty.string_of_uint u
  = NilEmpty.string_of_uint (Nat.iter n Decimal.D0 u).
Proof.
  induction n as [|n IH]; [done |].
  change (String "0" (zeros n +:+ NilEmpty.string_of_uint u)
          = String "0" (NilEmpty.string_of_uint (Nat.iter n Decimal.D0 u))).
  by rewrite IH.
Qed.

Lemma of_uint_zeros n u : Z.of_uint (Nat.iter n Decimal.D0 u) = Z.of_uint u.
Proof. induction n as [|n IH]; simpl; [done | by rewrite <- IH]. Qed.

Lemma iter_D0_nonnil n u : u <> Decimal.Nil -> Nat.iter n Decimal.D0 u <> Decimal.Nil.
Proof. destruct n; simpl; [done | discriminate]. Qed.

Lemma str_nonneg i :
  0 <= i ->
  exists u, u <> Decimal.Nil /\ Py.str i = NilEmpty.string_of_uint u /\ Z.of_uint u = i.
Proof.
  destruct i as [|p|p]; [| | lia]; intros _.
  - exists (Decimal.D0 Decimal.Nil). done.
  - exists (Pos.to_uint p). split; [apply DecimalPos.Unsigned.to_uint_nonnil |].
    split; [apply str_pos |].
    unfold Z.of_uint. by rewrite DecimalPos.Unsigned.of_to.
Qed.

(** The zero-padded index reads back as the index. *)
Lemma int_pad4 i : 0 <= i -> Py.int (pad4 i) = Some i.
Proof.
  intros (u & Hu & Hs & Hv)%str_nonneg. unfold pad4. rewrite Hs, zeros_uint.
  rewrite int_uint by by apply iter_D0_nonnil.
  by rewrite of_uint_zeros, Hv.
Qed.

Lemma state_path_of_inj state_dir i j :
  0 <= i -> 0 <= j -> state_path_of state_dir i = state_path_of state_dir j -> i = j.
Proof.
  intros Hi Hj H. unfold state_path_of in H.
  do 3 apply String.app_inj in H. apply append_cancel_r in H.
  apply (f_equal Py.int) in H. rewrite !int_pad4 in H by done. by simplify_eq.
Qed.

Lemma plan_states state_dir size parts :
  map task_state (plan_tasks state_dir size parts)
  = map (state_path_of state_dir) (seqZ 0 parts).
Proof. unfold plan_tasks. rewrite map_map. done. Qed.

(** No two planned segments share a state file. *)
Lemma plan_states_NoDup state_dir size parts :
  NoDup (map task_state (plan_tasks state_dir size parts)).
Proof.
  rewrite plan_states. apply NoDup_fmap_2_strong; [| apply NoDup_seqZ].
  intros i j Hi%elem_of_seqZ Hj%elem_of_seqZ.
  apply state_path_of_inj; lia.
Qed.

(** Every segment of a plan whose last segment starts inside the file
    has at least one byte. *)
Lemma plan_nonempty state_dir size parts t :
  0 < size -> 1 <= parts -> (parts - 1) * part_size_of size parts < size ->
  In t (plan_tasks state_dir size parts) -> 1 <= task_expected t.
Proof.
  intros Hs Hp Hlast Hin.
  apply list_elem_of_In, list_elem_of_lookup in Hin as [i Hi].
  apply plan_lookup in Hi as [Hi ->].
  pose proof (part_size_bounds size parts Hs Hp) as [Hlen _].
  unfold task_expected, task_start, task_end; simpl. nia.
Qed.

(** ** Removal of the resume state *)

Lemma confirmed_pos_exists E p w : 0 < confirmed E p w -> is_Some (files w !! p).
Proof.
  unfold confirmed, _read_state.
  destruct (fault E OpRead p); simpl; [lia |].
  destruct (files w !! p); [eauto | simpl; lia].
Qed.

Lemma remove_states_spec E tasks : forall w,
  NoDup (map task_state tasks) ->
  (forall t, In t tasks -> is_Some (files w !! task_state t)) ->
  (forall p, fault E OpRemove p = false) ->
  exists w', remove_states E tasks w = (Ret tt, w') /\
    dirs w' = dirs w /\
    forall p, files w' !! p
              = if bool_decide (p ∈ map task_state tasks) then None else files w !! p.
Proof.
  induction tasks as [|t tasks IH]; intros w Hnd Hex Hf; simpl.
  - exists w. split; [done |]. split; [done |]. intros p.
    try rewrite bool_decide_eq_false_2 by apply not_elem_of_nil. done.
  - apply NoDup_cons in Hnd as [Hnotin Hnd].
    destruct (Hex t (or_introl eq_refl)) as [c Hc].
    unfold bind at 1, os_remove. rewrite Hf, Hc.
    destruct (IH (set_files (delete (task_state t) (files w)) w) Hnd) as (w' & -> & Hd & Hl).
    + intros t' Hin. simpl. rewrite lookup_delete_ne; [by apply Hex; right |].
      intros Heq. apply Hnotin. rewrite Heq.
      apply list_elem_of_fmap. exists t'. split; [done |]. by apply list_elem_of_In.
    + done.
    + exists w'. split; [done |]. split; [done |]. intros p. rewrite Hl. simpl.
      destruct (decide (p = task_state t)) as [-> | Hne].
      * rewrite (bool_decide_eq_true_2 (_ ∈ _ :: _)) by apply list_elem_of_here.
        rewrite lookup_delete_eq. by case_bool_decide.
      * rewrite lookup_delete_ne by done.
        case_bool_decide as H1; case_bool_decide as H2; try done.
        -- exfalso. apply H2. by apply list_elem_of_further.
        -- apply elem_of_cons in H2 as [? | ?]; done.
Qed.

Lemma cleanup_spec E state_dir tasks w :
  NoDup (map task_state tasks) ->
  (forall t, In t tasks -> is_Some (files w !! task_state t)) ->
  (forall p, fault E OpRemove p = false) ->
  fault E OpRmdir state_dir = false ->
  state_dir ∈ dirs w ->
  dir_holds_only state_dir (map task_state tasks) w = true ->
  exists w', cleanup E state_dir tasks w = (Ret tt, w') /\
    (forall t, In t tasks -> files w' !! task_state t = None) /\
    state_dir ∉ dirs w'.
Proof.
  intros Hnd Hex Hf Hfr Hin [Hfiles Hdirs]%andb_true_iff.
  destruct (remove_states_spec E tasks w Hnd Hex Hf) as (w1 & Hrm & Hd1 & Hl1).
  unfold cleanup, try_catch, bind. rewrite Hrm.
  unfold os_rmdir. rewrite Hfr, Hd1.
  rewrite (bool_decide_eq_true_2 _ Hin). simpl.
  assert (Hempty : dir_is_empty state_dir w1 = true).
  { unfold dir_is_empty. rewrite Hd1, Hdirs, andb_true_r.
    apply forallb_forall. intros p [[p' c] [<- Hp]]%in_map_iff. simpl.
    apply list_elem_of_In, elem_of_map_to_list in Hp. rewrite Hl1 in Hp.
    case_bool_decide as Hmem; [done |].
    rewrite forallb_forall in Hfiles.
    specialize (Hfiles p').
    rewrite (bool_decide_eq_false_2 _ Hmem), orb_false_r in Hfiles.
    apply Hfiles. apply in_map_iff. exists (p', c). split; [done |].
    by apply list_elem_of_In, elem_of_map_to_list. }
  rewrite Hempty. eexists. split; [done |]. simpl. split.
  - intros t Ht. rewrite Hl1. rewrite bool_decide_eq_true_2; [done |].
    apply list_elem_of_fmap. exists t. split; [done |]. by apply list_elem_of_In.
  - intros [_ H]%elem_of_difference. apply H. by apply elem_of_singleton.
Qed.

(** ** Runs that never leave the sequential path *)

Lemma same_except_refl out w : same_except out w w.
Proof. by split. Qed.

Lemma same_except_trans out w1 w2 w3 :
  same_except out w1 w2 -> same_except out w2 w3 -> same_except out w1 w3.
Proof.
  intros [Hd1 Hf1] [Hd2 Hf2]. split; [congruence |].
  intros p Hp. by rewrite Hf2, Hf1.
Qed.

Lemma confined_ret {A} out (a : A) : confined out (ret a).
Proof. intros w r w' [= <- <-]. apply same_except_refl. Qed.

Lemma confined_bind {A B} out (m : M A) (k : A -> M B) :
  confined out m -> (forall a, confined out (k a)) -> confined out (bind m k).
Proof.
  intros Hm Hk w r w' H. apply bind_inv in H as [(a & w1 & H1 & H2) | (e & H1 & _)].
  - eapply same_except_trans; [by eapply Hm | by eapply Hk].
  - by eapply Hm.
Qed.

Lemma confined_try_catch {A} out (m : M A) h :
  confined out m -> (forall e, confined out (h e)) -> confined out (try_catch m h).
Proof.
  intros Hm Hh w r w'. unfold try_catch.
  destruct (m w) as [[a|e] w1] eqn:H1; intros H.
  - simplify_eq. by eapply Hm.
  - eapply same_except_trans; [by eapply Hm | by eapply Hh].
Qed.

Lemma confined_http E out rq : confined out (http E rq).
Proof. intros w r w' [-> _]%http_inv. by split. Qed.

Lemma confined_raise_for_status out r : confined out (raise_for_status r).
Proof.
  intros w x w'. unfold raise_for_status, raise, ret.
  case_match; intros [= <- <-]; apply same_except_refl.
Qed.

Lemma confined_end_of_stream out r : confined out (end_of_stream r).
Proof.
  intros w x w'. unfold end_of_stream, raise, ret.
  case_match; intros [= <- <-]; apply same_except_refl.
Qed.

Lemma confined_open_wb E out : confined out (open_wb E out).
Proof.
  intros w r w'. unfold open_wb. case_match; intros [= <- <-].
  - apply same_except_refl.
  - split; [done |]. intros p Hp. simpl. by rewrite lookup_insert_ne.
Qed.

Lemma confined_file_write E out data : confined out (file_write E out data).
Proof.
  intros w r w'. unfold file_write. repeat case_match; intros [= <- <-];
    try apply same_except_refl.
  split; [done |]. intros p Hp. simpl. by rewrite lookup_insert_ne.
Qed.

Lemma confined_write_all E out cs : confined out (write_all E out cs).
Proof.
  induction cs as [|[chunk due] cs IH]; simpl; [apply confined_ret |].
  destruct chunk; [done |].
  apply confined_bind; [apply confined_file_write | done].
Qed.

Lemma confined_single_thread_download E url out :
  confined out (single_thread_download E url out).
Proof.
  unfold single_thread_download.
  repeat (apply confined_bind; [| intros ?]);
    auto using confined_http, confined_raise_for_status, confined_open_wb,
      confined_write_all, confined_end_of_stream, confined_ret.
Qed.

Lemma confined_probe E url out : confined out (probe_size_and_range E url).
Proof.
  unfold probe_size_and_range, probe_head, probe_get.
  repeat first
    [ apply confined_bind; [| intros ?]
    | apply confined_try_catch; [| intros ?]
    | apply confined_http | apply confined_raise_for_status | apply confined_ret
    | match goal with
      | |- confined _ (raise _) => intros ? ? ? [= <- <-]; apply same_except_refl
      | |- confined _ (if ?b then _ else _) => destruct b
      | |- confined _ (match ?x with _ => _ end) => destruct x
      end ].
Qed.

(** C5 (as amended): (1) when a parallel run succeeds on a plan whose
    segments are all non-empty, the state directory holds nothing but the
    planned state files and the removals do not fail, every state file
    and the directory are gone afterwards; (2) a parallel run that returns
    [False] after the workers leaves the world as the workers left it;
    (3) a run whose probe gives no size, no range support, or that was
    asked for at most one part, creates and removes no directory and no
    file other than the output file. *)
Theorem resume_state_cleanup E url out :
  (forall size parts ok w w',
     let state_dir := out +:+ ".parts" in
     let tasks := plan_tasks state_dir size parts in
     0 < size -> 1 <= parts -> (parts - 1) * part_size_of size parts < size ->
     (forall p, fault E OpRemove p = false) ->
     fault E OpRmdir state_dir = false ->
     state_dir ∈ dirs w ->
     dir_holds_only state_dir (map task_state tasks) w = true ->
     conclude E url out size state_dir tasks ok false w = (Ret true, w') ->
     (forall t, In t tasks -> files w' !! task_state t = None) /\
     state_dir ∉ dirs w') /\
  (forall size state_dir tasks ok w w',
     conclude E url out size state_dir tasks ok false w = (Ret false, w') ->
     w' = w) /\
  (forall parts retries size range_ok w w1 r w',
     probe_size_and_range E url w = (Ret (size, range_ok), w1) ->
     size <= 0 \/ range_ok = false \/ parts <= 1 ->
     parallel_download E url out parts retries w = (r, w') ->
     same_except out w w').
Proof.
  split; [| split].
  - intros size parts ok w w' state_dir tasks Hs Hp Hlast Hrm Hrd Hdir Honly.
    unfold conclude. unfold ret at 1 2 3. destruct ok; simpl; [| done].
    unfold bind at 1.
    destruct (verify_parts_spec E tasks w) as (b1 & -> & Hb1).
    destruct b1; simpl; [| done].
    unfold bind at 1.
    destruct (verify_size_spec E out size w) as (b2 & -> & Hb2).
    destruct b2; simpl; [| done].
    destruct (cleanup_spec E state_dir tasks w) as (w1 & Hc & Hgone & Hnodir);
      [apply plan_states_NoDup | | done | done | done | done |].
    { intros t Ht. apply (confirmed_pos_exists E).
      pose proof (plan_nonempty _ _ _ t Hs Hp Hlast Ht).
      pose proof (proj1 Hb1 eq_refl t Ht). lia. }
    unfold bind. rewrite Hc. intros [= <-]. done.
  - intros size state_dir tasks ok w w'.
    unfold conclude. unfold ret at 1 2 3. destruct ok; simpl; [| by intros [= <-]].
    unfold bind at 1.
    destruct (verify_parts_spec E tasks w) as (b1 & -> & Hb1).
    destruct b1; simpl; [| by intros [= <-]].
    unfold bind at 1.
    destruct (verify_size_spec E out size w) as (b2 & -> & Hb2).
    destruct b2; simpl; [| by intros [= <-]].
    unfold bind. destruct (cleanup_returns E state_dir tasks w) as [w1 ->]. done.
  - intros parts retries size range_ok w w1 r w' Hprobe Hcond.
    unfold parallel_download, bind at 1. rewrite Hprobe. simpl.
    intros Hseq.
    assert (Hst : single_thread_download E url out w1 = (r, w')).
    { destruct (size <=? 0) eqn:H0; [done |].
      destruct (negb range_ok || (parts <=? 1)) eqn:H1; [done |].
      apply orb_false_iff in H1 as [Hr Hp]. apply negb_false_iff in Hr.
      destruct Hcond as [? | [? | ?]]; [lia | congruence | lia]. }
    eapply same_except_trans.
    + by eapply confined_probe.
    + by eapply confined_single_thread_download.
Qed.

Lemma resume_state_cleanup_witness :
  let E := Env (range_server 4) no_faults in
  let tasks := plan_tasks "o.parts" 4 2 in
  let w' := snd (conclude E "u" "o" 4 "o.parts" tasks true false finished_world) in
  (forall t, In t tasks -> files w' !! task_state t = None) /\ "o.parts" ∉ dirs w'.
Proof.
  intros E tasks w'.
  apply (proj1 (resume_state_cleanup E "u" "o") 4 2 true finished_world w').
  - lia.
  - lia.
  - vm_compute. reflexivity.
  - intros p. reflexivity.
  - reflexivity.
  - vm_compute. reflexivity.
  - vm_compute. reflexivity.
  - vm_compute. reflexivity.
Defined.

(** C5 (as stated) fails twice.  With 5 bytes in 4 segments the run
    succeeds on the parallel path, but the fourth segment is empty and
    never had a state file, so the removal stops there and the directory
    stays.  With a server that honours the range for the probe and the
    first segment and answers 200 to the second, the run completes
    through the sequential fallback and the first segment's state file
    (and the directory) stay. *)
Lemma state_left_behind :
  let full := parallel_download (Env (range_server 5) no_faults) "u" "o" 4 5 empty_world in
  let fallback := parallel_download (Env (server_mixed 4) no_faults) "u" "o" 2 5 empty_world in
  (fst full = Ret true /\
   trace (snd full) = [EvRequest (Head "u"); EvRequest (Get "u" (Some (0, 0)));
                       EvRequest (Get "u" (Some (0, 1))); EvRequest (Get "u" (Some (2, 3)));
                       EvRequest (Get "u" (Some (4, 4)))] /\
   elements (dirs (snd full)) = ["o.parts"]) /\
  (fst fallback = Ret true /\
   trace (snd fallback) = [EvRequest (Head "u"); EvRequest (Get "u" (Some (0, 0)));
                           EvRequest (Get "u" (Some (0, 1))); EvRequest (Get "u" (Some (2, 3)));
                           EvRequest (Get "u" None)] /\
   files (snd fallback) !! state_path_of "o.parts" 0 = Some (list_byte_of_string "2") /\
   elements (dirs (snd fallback)) = ["o.parts"]).
Proof. vm_compute. repeat split; reflexivity. Qed.

(** ** Positional writes *)

Lemma splice_length c off data :
  length (splice c off data) = Nat.max (length c) (off + length data).
Proof. unfold splice. rewrite !length_app, length_resize, length_drop. lia. Qed.

Lemma splice_lookup c off data (i : nat) :
  splice c off data !! i =
  if decide (i < off)%nat then Some (default x00 (c !! i))
  else if decide (i < off + length data)%nat then data !! (i - off)%nat
       else c !! i.
Proof.
  unfold splice. case_decide as H1.
  - rewrite lookup_app_l by (rewrite length_resize; lia).
    destruct (decide (i < length c)%nat) as [Hi | Hi].
    + rewrite lookup_resize by lia.
      destruct (lookup_lt_is_Some_2 c i Hi) as [b ->]. done.
    + rewrite lookup_resize_new by lia.
      by rewrite (lookup_ge_None_2 c i) by lia.
  - rewrite lookup_app_r by (rewrite length_resize; lia).
    rewrite length_resize. case_decide as H2.
    + by rewrite lookup_app_l by lia.
    + rewrite lookup_app_r by lia. rewrite lookup_drop. f_equal. lia.
Qed.

Lemma splice_twice c off data : splice (splice c off data) off data = splice c off data.
Proof.
  apply list_eq. intros i. rewrite !splice_lookup.
  repeat case_decide; try lia; done.
Qed.

Lemma splice_splice c off d1 d2 :
  splice (splice c off d1) (off + length d1) d2 = splice c off (d1 ++ d2).
Proof.
  apply list_eq. intros i. rewrite !splice_lookup, length_app.
  repeat case_decide; try lia; try done.
  - rewrite lookup_app_l by lia.
    by destruct (lookup_lt_is_Some_2 d1 (i - off) ltac:(lia)) as [b ->].
  - rewrite lookup_app_r by lia. f_equal. lia.
Qed.

Lemma splice_commute c o1 d1 o2 d2 :
  (o1 + length d1 <= o2)%nat ->
  splice (splice c o1 d1) o2 d2 = splice (splice c o2 d2) o1 d1.
Proof.
  intros Hd. apply list_eq. intros i. rewrite !splice_lookup.
  repeat case_decide; try lia; try done.
  by destruct (lookup_lt_is_Some_2 d1 (i - o1) ltac:(lia)) as [b ->].
Qed.

Lemma write_at_inv E out off data w r w' :
  _write_at E out off data w = (r, w') ->
  (exists e, r = Raise e /\ w' = w /\
     (fault E OpWrite out = true \/ off < 0 \/ files w !! out = None)) \/
  (exists c, r = Ret tt /\ fault E OpWrite out = false /\ 0 <= off /\
     files w !! out = Some c /\
     w' = set_files (<[out := splice c (Z.to_nat off) data]> (files w)) w).
Proof.
  unfold _write_at.
  destruct (fault E OpWrite out) eqn:Hf; simpl.
  { intros [= <- <-]. left. eauto 10. }
  destruct (off <? 0) eqn:Ho.
  { intros [= <- <-]. left. eexists. split; [done |]. split; [done |]. right. left. lia. }
  destruct (files w !! out) as [c|] eqn:Hc; intros [= <- <-].
  - right. exists c. repeat split; try done. lia.
  - left. eauto 10.
Qed.

Lemma write_at_ok E out off data w c :
  fault E OpWrite out = false -> 0 <= off -> files w !! out = Some c ->
  _write_at E out off data w
  = (Ret tt, set_files (<[out := splice c (Z.to_nat off) data]> (files w)) w).
Proof.
  intros Hf Ho Hc. unfold _write_at. rewrite Hf, Hc. simpl.
  destruct (off <? 0) eqn:H; [lia | done].
Qed.

(** X1.  Writing the same bytes at the same offset a second time
    changes nothing: the second [_write_at] succeeds and leaves the world
    exactly as the first one left it. *)
Theorem write_at_idempotent E out off data w w1 :
  _write_at E out off data w = (Ret tt, w1) ->
  _write_at E out off data w1 = (Ret tt, w1).
Proof.
  intros [(e & ? & _) | (c & _ & Hf & Ho & Hc & ->)]%write_at_inv; [done |].
  erewrite write_at_ok; [| done | done | apply lookup_insert_eq].
  f_equal. unfold set_files; simpl. f_equal.
  by rewrite insert_insert_eq, splice_twice.
Qed.

Lemma write_at_idempotent_witness :
  exists w1, _write_at (Env (range_server 10) no_faults) "o" 3 (payload 2) fresh_world
             = (Ret tt, w1) /\
             _write_at (Env (range_server 10) no_faults) "o" 3 (payload 2) w1 = (Ret tt, w1).
Proof.
  eexists. split; [reflexivity |].
  apply write_at_idempotent with (w := fresh_world). reflexivity.
Defined.



(** X3.  Writes to disjoint byte ranges of the output file commute: done
    in either order they return the same result and the same world, also
    when the file has to grow. *)
Theorem write_at_disjoint_commute E out o1 d1 o2 d2 w :
  0 <= o1 -> o1 + Z.of_nat (length d1) <= o2 ->
  bind (_write_at E out o1 d1) (fun _ => _write_at E out o2 d2) w
  = bind (_write_at E out o2 d2) (fun _ => _write_at E out o1 d1) w.
Proof.
  intros H1 H2. unfold bind.
  destruct (fault E OpWrite out) eqn:Hf.
  { unfold _write_at. by rewrite Hf. }
  destruct (files w !! out) as [c|] eqn:Hc.
  - rewrite (write_at_ok E out o1 d1 w c), (write_at_ok E out o2 d2 w c) by (done || lia).
    erewrite !write_at_ok; [| done | done | apply lookup_insert_eq
                            | done | lia | apply lookup_insert_eq].
    f_equal. unfold set_files; simpl. f_equal.
    rewrite !insert_insert_eq. f_equal. apply splice_commute. lia.
  - unfold _write_at. rewrite Hf, Hc. simpl.
    destruct (o1 <? 0) eqn:E1; [lia |]. destruct (o2 <? 0) eqn:E2; [lia | done].
Qed.

Lemma write_at_disjoint_commute_witness :
  bind (_write_at (Env (range_server 10) no_faults) "o" 0 (payload 3))
       (fun _ => _write_at (Env (range_server 10) no_faults) "o" 12 (payload 3)) fresh_world
  = bind (_write_at (Env (range_server 10) no_faults) "o" 12 (payload 3))
         (fun _ => _write_at (Env (range_server 10) no_faults) "o" 0 (payload 3)) fresh_world.
Proof. apply write_at_disjoint_commute; simpl; lia. Defined.



(** ** Resume store *)

Lemma append_nil_l (t : string) : "" +:+ t = t.
Proof. reflexivity. Qed.

Lemma append_cons (c : ascii) (s t : string) : String c s +:+ t = String c (s +:+ t).
Proof. reflexivity. Qed.

Lemma tmp_differs (p : string) : p +:+ ".tmp" <> p.
Proof.
  intros H. apply (f_equal String.length) in H.
  rewrite string_length_app in H. simpl in H. lia.
Qed.

Lemma write_state_inv E sp v w r w' :
  _write_state E sp v w = (r, w') ->
  (exists e, r = Raise e /\ dirs w' = dirs w /\
     forall p, p <> sp +:+ ".tmp" -> files w' !! p = files w !! p) \/
  (r = Ret tt /\ dirs w' = dirs w /\
   files w' = <[sp := list_byte_of_string (Py.str v)]> (delete (sp +:+ ".tmp") (files w))).
Proof.
  unfold _write_state.
  repeat case_match; intros [= <- <-]; simpl; eauto;
    left; eexists; (split; [done |]); (split; [done |]);
    intros p Hp; by rewrite ?lookup_insert_ne.
Qed.

(** X5.  After a successful [_write_state] the state file reads back as
    the value written, the temporary file is gone, and no other file and
    no directory has changed. *)
Theorem write_state_round_trip E sp v w w' :
  _write_state E sp v w = (Ret tt, w') ->
  fault E OpRead sp = false ->
  _read_state E sp w' = (Ret v, w') /\
  files w' !! (sp +:+ ".tmp") = None /\
  (forall p, p <> sp -> p <> sp +:+ ".tmp" -> files w' !! p = files w !! p) /\
  dirs w' = dirs w.
Proof.
  intros Hw Hr. split.
  - rewrite read_state_eq. by rewrite (write_state_confirmed _ _ _ _ _ Hw Hr).
  - apply write_state_inv in Hw as [(e & ? & _) | (_ & Hd & Hf)]; [done |].
    rewrite Hf. split; [| split; [| done]].
    + rewrite lookup_insert_ne by (intros H; by apply (tmp_differs sp)).
      apply lookup_delete_eq.
    + intros p H1 H2. by rewrite lookup_insert_ne, lookup_delete_ne.
Qed.

Lemma write_state_round_trip_witness :
  exists w', _write_state (Env (range_server 10) no_faults) "s" 1234 fresh_world
             = (Ret tt, w') /\
             _read_state (Env (range_server 10) no_faults) "s" w' = (Ret 1234, w').
Proof.
  eexists. split; [reflexivity |].
  apply (write_state_round_trip _ "s" 1234 fresh_world); reflexivity.
Defined.

(** X6.  A [_write_state] that fails leaves the state file as it was:
    whatever it wrote went to the temporary file only. *)
Theorem write_state_failure_keeps_state E sp v w e w' :
  _write_state E sp v w = (Raise e, w') ->
  files w' !! sp = files w !! sp /\
  (forall p, p <> sp +:+ ".tmp" -> files w' !! p = files w !! p) /\
  dirs w' = dirs w.
Proof.
  intros [(e' & _ & Hd & Hf) | (? & _)]%write_state_inv; [| done].
  split; [| done]. apply Hf. intros H. by apply (tmp_differs sp).
Qed.

Lemma write_state_failure_keeps_state_witness :
  let E := Env (range_server 10) (replace_fails "s") in
  files (snd (_write_state E "s" 9 resumed_world)) !! "s" = files resumed_world !! "s".
Proof.
  intros E.
  refine (proj1 (write_state_failure_keeps_state E "s" 9 resumed_world
                   (os_error "replace") (snd (_write_state E "s" 9 resumed_world)) _)).
  reflexivity.
Defined.

Lemma lstrip_blank ws s : blank ws -> Py.lstrip (ws +:+ s) = Py.lstrip s.
Proof.
  unfold blank. induction ws as [|c ws IH]; [done |]. simpl.
  intros [Hc Hws]%andb_true_iff. rewrite ?append_cons; simpl. rewrite Hc. auto.
Qed.

Lemma rstrip_blank ws : blank ws -> Py.rstrip ws = "".
Proof.
  unfold blank. induction ws as [|c ws IH]; [done |]. simpl.
  intros [Hc Hws]%andb_true_iff. by rewrite IH, Hc.
Qed.

Lemma rstrip_plain_blank s ws :
  plain s -> s <> "" -> blank ws -> Py.rstrip (s +:+ ws) = s.
Proof.
  intros Hs Hne Hws. induction s as [|c s IH]; [done |].
  unfold plain in Hs. simpl in Hs. apply andb_true_iff in Hs as [Hc Hs].
  apply negb_true_iff in Hc. rewrite ?append_cons; simpl.
  destruct s as [|c' s].
  - rewrite ?append_nil_l, rstrip_blank, Hc; done.
  - rewrite IH; done.
Qed.

Lemma plain_app s t : plain s -> plain t -> plain (s +:+ t).
Proof.
  unfold plain. induction s as [|c s IH]; [done |]. simpl.
  intros [Hc Hs]%andb_true_iff Ht. rewrite ?append_cons; simpl.
  by rewrite Hc, IH.
Qed.

Lemma strip_padded ws1 s ws2 :
  blank ws1 -> blank ws2 -> plain s -> s <> "" ->
  Py.strip (ws1 +:+ s +:+ ws2) = s.
Proof.
  intros H1 H2 Hs Hne. unfold Py.strip. rewrite lstrip_blank by done.
  destruct s as [|c s]; [done |].
  assert (Hc : Py.is_space c = false).
  { unfold plain in Hs. simpl in Hs. apply andb_true_iff in Hs as [Hc _].
    by apply negb_true_iff. }
  rewrite ?append_cons; simpl. rewrite Hc. rewrite <- append_cons.
  by apply rstrip_plain_blank.
Qed.



(** ** Sequential transfer *)

Lemma file_write_inv E out data w r w' :
  file_write E out data w = (r, w') ->
  (exists e, r = Raise e /\ w' = w) \/
  (exists c, r = Ret tt /\ files w !! out = Some c /\
     w' = set_files (<[out := c ++ data]> (files w)) w).
Proof.
  unfold file_write. repeat case_match; intros [= <- <-]; eauto.
Qed.

(** What [write_all] leaves behind, whether it finishes or a write fails:
    the old contents followed by a prefix of the blocks, all of them when
    it finishes. *)
Lemma write_all_inv E out cs : forall w c r w',
  files w !! out = Some c ->
  write_all E out cs w = (r, w') ->
  dirs w' = dirs w /\ trace w' = trace w /\
  (forall p, p <> out -> files w' !! p = files w !! p) /\
  match r with
  | Ret _ => files w' !! out = Some (c ++ concat (map fst cs))
  | Raise _ => exists written, files w' !! out = Some (c ++ written)
  end.
Proof.
  induction cs as [|[chunk due] cs IH]; intros w c r w' Hc; simpl.
  - intros [= <- <-]. by rewrite app_nil_r.
  - destruct chunk as [|b chunk]; [by apply IH |].
    intros H. apply bind_inv in H as [([] & w1 & H1 & H2) | (e & H1 & ->)];
      apply file_write_inv in H1 as [(e' & ? & ->) | (c0 & ? & Hc0 & ->)]; simplify_eq.
    + eapply IH in H2; [| apply lookup_insert_eq].
      destruct H2 as (Hd & Ht & Hf & Hr). simpl in *.
      split; [done |]. split; [done |]. split.
      { intros p Hp. rewrite Hf by done. by rewrite lookup_insert_ne. }
      destruct r.
      * by rewrite Hr, <- app_assoc.
      * destruct Hr as [written Hr]. exists ((b :: chunk) ++ written).
        by rewrite Hr, <- app_assoc.
    + split; [done |]. split; [done |]. split; [done |].
      exists []. by rewrite app_nil_r.
Qed.

Lemma open_wb_inv E out w r w' :
  open_wb E out w = (r, w') ->
  (exists e, r = Raise e /\ w' = w) \/
  (r = Ret tt /\ w' = set_files (<[out := []]> (files w)) w).
Proof. unfold open_wb. case_match; intros [= <- <-]; eauto. Qed.

Lemma raise_for_status_inv rsp w r w' :
  raise_for_status rsp w = (r, w') ->
  w' = w /\
  match r with
  | Ret _ => ~ (400 <= status_code rsp < 600)
  | Raise e => 400 <= status_code rsp < 600 /\ e = Exn HTTPError (Py.str (status_code rsp))
  end.
Proof.
  unfold raise_for_status, raise, ret.
  destruct ((400 <=? status_code rsp) && (status_code rsp <? 600)) eqn:H;
    intros [= <- <-]; (split; [done |]).
  - apply andb_true_iff in H. split; [lia | done].
  - apply andb_false_iff in H. lia.
Qed.

Lemma end_of_stream_inv rsp w r w' :
  end_of_stream rsp w = (r, w') ->
  w' = w /\
  match r with
  | Ret _ => stream_error rsp = None
  | Raise e => stream_error rsp = Some e
  end.
Proof.
  unfold end_of_stream, raise, ret.
  destruct (stream_error rsp); intros [= <- <-]; done.
Qed.

(** X8.  When [single_thread_download] returns, it returns [True]; it
    has sent exactly one request, a [GET] without [Range]; the reply was
    not an error status and its stream ended cleanly; the output file
    holds exactly the bytes of the body, whatever it held before; no other
    file and no directory has changed. *)
Theorem sequential_output_is_body E url out w b w' :
  single_thread_download E url out w = (Ret b, w') ->
  exists rsp,
    serve E (trace w) (Get url None) = Reply rsp /\
    ~ (400 <= status_code rsp < 600) /\ stream_error rsp = None /\
    b = true /\
    files w' !! out = Some (body rsp) /\
    (forall p, p <> out -> files w' !! p = files w !! p) /\
    dirs w' = dirs w /\
    trace w' = trace w ++ [EvRequest (Get url None)].
Proof.
  unfold single_thread_download. intros H.
  apply bind_inv in H as [(rsp & w1 & H1 & H) | (e & _ & ?)]; [| done].
  apply http_inv in H1 as [-> Hs].
  apply bind_inv in H as [([] & w2 & H2 & H) | (e & _ & ?)]; [| done].
  apply raise_for_status_inv in H2 as [-> Hst].
  apply bind_inv in H as [([] & w3 & H3 & H) | (e & _ & ?)]; [| done].
  apply open_wb_inv in H3 as [(e & ? & _) | [_ ->]]; [done |].
  apply bind_inv in H as [([] & w4 & H4 & H) | (e & _ & ?)]; [| done].
  eapply write_all_inv in H4 as (Hd & Ht & Hf & Hc); [| apply lookup_insert_eq].
  apply bind_inv in H as [([] & w5 & H5 & H) | (e & _ & ?)]; [| done].
  apply end_of_stream_inv in H5 as [-> Herr].
  unfold ret in H. simplify_eq. simpl in *.
  exists rsp. repeat split; try done.
  intros p Hp. rewrite Hf by done. by rewrite lookup_insert_ne.
Qed.

Lemma sequential_output_is_body_witness :
  exists w', single_thread_download (Env (range_server 10) no_faults) "u" "o" fresh_world
             = (Ret true, w') /\
             files w' !! "o" = Some (payload 10).
Proof.
  destruct (sequential_output_is_body (Env (range_server 10) no_faults) "u" "o" fresh_world
              true _ eq_refl) as (rsp & Hs & _ & _ & _ & Hb & _).
  eexists. split; [reflexivity |].
  injection Hs as <-. exact Hb.
Defined.

(** X9.  How [single_thread_download] fails.  A transport failure or an
    error status raises before the output file is opened: the world only
    gains the request in its history, so an existing output file is not
    truncated.  A stream that breaks raises the stream's exception and
    leaves in the output file exactly the bytes of the blocks delivered
    before the break, nothing of the old contents. *)
Theorem sequential_failures E url out w :
  let w1 := log (EvRequest (Get url None)) w in
  (forall e, serve E (trace w) (Get url None) = Unreachable e ->
     single_thread_download E url out w = (Raise e, w1)) /\
  (forall rsp, serve E (trace w) (Get url None) = Reply rsp ->
     400 <= status_code rsp < 600 ->
     single_thread_download E url out w
     = (Raise (Exn HTTPError (Py.str (status_code rsp))), w1)) /\
  (forall rsp e, serve E (trace w) (Get url None) = Reply rsp ->
     ~ (400 <= status_code rsp < 600) -> stream_error rsp = Some e ->
     fault E OpCreate out = false -> out ∉ dirs w -> fault E OpWrite out = false ->
     exists w', single_thread_download E url out w = (Raise e, w') /\
       files w' !! out = Some (body rsp)).
Proof.
  intros w1. split; [| split].
  - intros e Hs. unfold single_thread_download, bind, http. by rewrite Hs.
  - intros rsp Hs Hst. unfold single_thread_download, bind at 1, http. rewrite Hs.
    unfold bind, raise_for_status.
    destruct ((400 <=? status_code rsp) && (status_code rsp <? 600)) eqn:H; [done |].
    apply andb_false_iff in H. lia.
  - intros rsp e Hs Hst Herr Hcr Hdir Hwr.
    unfold single_thread_download, bind at 1, http. rewrite Hs.
    unfold bind at 1, raise_for_status.
    destruct ((400 <=? status_code rsp) && (status_code rsp <? 600)) eqn:H.
    { apply andb_true_iff in H. lia. }
    unfold ret at 1. unfold bind at 1, open_wb. rewrite Hcr. simpl.
    rewrite bool_decide_eq_false_2 by done.
    unfold bind at 1.
    destruct (write_all E out (chunks rsp) _) as [[[]|e'] w4] eqn:H4.
    + eapply write_all_inv in H4 as (_ & _ & _ & Hc); [| apply lookup_insert_eq].
      unfold bind, end_of_stream. rewrite Herr. eexists. split; [done |]. exact Hc.
    + exfalso. clear -H4 Hwr.
      set (w0 := set_files _ _) in H4.
      assert (Hex : is_Some (files w0 !! out)) by (eexists; apply lookup_insert_eq).
      clearbody w0. revert w0 H4 Hex.
      induction (chunks rsp) as [|[chunk due] cs IH]; intros w0 H4 [c Hc]; simpl in H4.
      * done.
      * destruct chunk as [|b chunk]; [by eapply IH |].
        unfold bind, file_write in H4. rewrite Hwr, Hc in H4.
        eapply IH; [exact H4 |]. eexists. apply lookup_insert_eq.
Qed.

Lemma sequential_failures_witness :
  exists w', single_thread_download (Env server_broken no_faults) "u" "o" fresh_world
             = (Raise (Exn RequestException "connection broken"), w') /\
             files w' !! "o" = Some (payload 4).
Proof.
  destruct (sequential_failures (Env server_broken no_faults) "u" "o" fresh_world)
    as (_ & _ & H).
  destruct (H _ (Exn RequestException "connection broken") eq_refl) as (w' & Hrun & Hc).
  - simpl. lia.
  - reflexivity.
  - reflexivity.
  - vm_compute. intros Hin. discriminate Hin.
  - reflexivity.
  - exists w'. split; [exact Hrun | exact Hc].
Defined.

(** ** Pre-sizing, continued *)

Lemma truncate_inv E out n w r w' :
  truncate E out n w = (r, w') ->
  (exists e, r = Raise e /\ w' = w) \/
  (exists c, r = Ret tt /\ 0 <= n /\ files w !! out = Some c /\
     w' = set_files (<[out := resize (Z.to_nat n) x00 c]> (files w)) w).
Proof.
  unfold truncate.
  destruct (fault E OpTruncate out); simpl; [intros [= <- <-]; eauto |].
  destruct (n <? 0) eqn:Hn; [intros [= <- <-]; eauto |].
  destruct (files w !! out) as [c|] eqn:Hc; intros [= <- <-]; [| eauto].
  right. exists c. repeat split; try done. lia.
Qed.



(** ** Capability prober, continued *)

Lemma probe_get_world E url size w :
  exists r, probe_get E url size w
            = (Ret r, log (EvRequest (Get url (Some (0, 0)))) w).
Proof.
  unfold probe_get, try_catch, bind, http, ret, raise.
  repeat case_match; simplify_eq; eauto.
Qed.

Lemma probe_world E url w :
  exists size range_ok,
    probe_size_and_range E url w
    = (Ret (size, range_ok),
       World (files w) (dirs w)
         (trace w ++ [EvRequest (Head url); EvRequest (Get url (Some (0, 0)))])
         (progress w)).
Proof.
  unfold probe_size_and_range, bind.
  destruct (probe_head_returns E url w) as [s ->].
  destruct (probe_get_world E url s (log (EvRequest (Head url)) w)) as [[size ok] ->].
  exists size, ok. unfold log; simpl. by rewrite <- app_assoc.
Qed.

(** X11.  A probe always sends exactly two requests, the [HEAD] and then
    the [GET] for [bytes=0-0] (the second also when the first failed), and
    changes nothing else: no file, no directory, not the counter. *)
Theorem probe_two_requests E url w :
  exists size range_ok,
    probe_size_and_range E url w
    = (Ret (size, range_ok),
       World (files w) (dirs w)
         (trace w ++ [EvRequest (Head url); EvRequest (Get url (Some (0, 0)))])
         (progress w)).
Proof. apply probe_world. Qed.

(** X12.  When the [HEAD] reply is not an error and its
    [Content-Length] reads as a number [n] other than 0, the probed size
    is [n] whatever the ranged reply says, and range support is reported
    exactly when the ranged request was answered with status 206 and a
    [Content-Range] header. *)
Theorem probe_head_length_wins E url w rh s n :
  serve E (trace w) (Head url) = Reply rh ->
  ~ (400 <= status_code rh < 600) ->
  content_length rh = Some s -> s <> "" -> Py.int s = Some n -> n <> 0 ->
  exists range_ok w',
    probe_size_and_range E url w = (Ret (n, range_ok), w') /\
    (range_ok = true <->
     exists r cr,
       serve E (trace w ++ [EvRequest (Head url)]) (Get url (Some (0, 0))) = Reply r /\
       status_code r = 206 /\ content_range r = Some cr).
Proof.
  intros Hh Hst Hcl Hne Hint Hn0.
  unfold probe_size_and_range, bind at 1.
  assert (Hhead : probe_head E url w = (Ret n, log (EvRequest (Head url)) w)).
  { unfold probe_head, try_catch, bind at 1, http. rewrite Hh.
    unfold bind, raise_for_status.
    destruct ((400 <=? status_code rh) && (status_code rh <? 600)) eqn:H.
    { apply andb_true_iff in H. lia. }
    unfold ret at 1. rewrite Hcl. destruct s; [done |]. by rewrite Hint. }
  rewrite Hhead. unfold probe_get, try_catch, bind, http. simpl trace.
  destruct (serve E (trace w ++ [EvRequest (Head url)]) (Get url (Some (0, 0))))
    as [r|e] eqn:Hg.
  - assert (Hsz : (n =? 0) = false) by lia. rewrite Hsz. simpl.
    destruct (content_range r) as [cr|] eqn:Hcr; unfold ret;
      eexists _, _; (split; [reflexivity |]).
    + rewrite (bool_decide_eq_true_2 (is_Some (Some cr))) by eauto.
      rewrite andb_true_r. split.
      * intros He%Z.eqb_eq. eauto.
      * intros (r' & cr' & [= <-] & He & _). by apply Z.eqb_eq.
    + rewrite andb_comm. simpl. split; [done |].
      intros (r' & cr' & [= <-] & _ & ?). congruence.
  - unfold ret. eexists _, _. split; [reflexivity |]. split; [done |].
    intros (r' & cr' & ? & _). done.
Qed.

Lemma probe_head_length_wins_witness :
  exists range_ok w',
    probe_size_and_range (Env (range_server 10) no_faults) "u" empty_world
    = (Ret (10, range_ok), w').
Proof.
  destruct (probe_head_length_wins (Env (range_server 10) no_faults) "u" empty_world
              _ "10" 10 eq_refl) as (ok & w' & H & _).
  - simpl. lia.
  - reflexivity.
  - discriminate.
  - reflexivity.
  - discriminate.
  - exists ok, w'. exact H.
Defined.

(** ** What a worker touches *)

Section Keeps.

Variable R : world -> world -> Prop.
Hypothesis R_refl : forall w, R w w.
Hypothesis R_trans : forall w1 w2 w3, R w1 w2 -> R w2 w3 -> R w1 w3.

Lemma keeps_ret {A} (a : A) : keeps R (ret a).
Proof. intros w r w' [= <- <-]. apply R_refl. Qed.

Lemma keeps_raise {A} e : keeps R (@raise A e).
Proof. intros w r w' [= <- <-]. apply R_refl. Qed.

Lemma keeps_bind {A B} (m : M A) (k : A -> M B) :
  keeps R m -> (forall a, keeps R (k a)) -> keeps R (bind m k).
Proof.
  intros Hm Hk w r w' H. apply bind_inv in H as [(a & w1 & H1 & H2) | (e & H1 & _)].
  - eapply R_trans; [by eapply Hm | by eapply Hk].
  - by eapply Hm.
Qed.

Lemma keeps_try_catch {A} (m : M A) h :
  keeps R m -> (forall e, keeps R (h e)) -> keeps R (try_catch m h).
Proof.
  intros Hm Hh w r w'. unfold try_catch.
  destruct (m w) as [[a|e] w1] eqn:H1; intros H.
  - simplify_eq. by eapply Hm.
  - eapply R_trans; [by eapply Hm | by eapply Hh].
Qed.

Lemma keeps_future {A} (m : M A) : keeps R m -> keeps R (future m).
Proof.
  intros Hm w r w'. unfold future.
  destruct (m w) as [[a|e] w1] eqn:H1; intros [= <- <-]; by eapply Hm.
Qed.

(** Operations that return the world they were given. *)
Lemma keeps_read_state E p : keeps R (_read_state E p).
Proof. intros w r w'. rewrite read_state_eq. intros [= <- <-]. apply R_refl. Qed.

Lemma keeps_open_wronly E p : keeps R (os_open_wronly E p).
Proof.
  intros w r w'. unfold os_open_wronly.
  repeat case_match; intros [= <- <-]; apply R_refl.
Qed.

Lemma keeps_raise_for_status rsp : keeps R (raise_for_status rsp).
Proof. intros w r w' [-> _]%raise_for_status_inv. apply R_refl. Qed.

Lemma keeps_end_of_stream rsp : keeps R (end_of_stream rsp).
Proof. intros w r w' [-> _]%end_of_stream_inv. apply R_refl. Qed.

Lemma keeps_getsize E p : keeps R (os_path_getsize E p).
Proof.
  intros w r w'. unfold os_path_getsize.
  repeat case_match; intros [= <- <-]; apply R_refl.
Qed.

End Keeps.

Lemma touches_only_refl ps w : touches_only ps w w.
Proof. by split. Qed.

Lemma touches_only_trans ps w1 w2 w3 :
  touches_only ps w1 w2 -> touches_only ps w2 w3 -> touches_only ps w1 w3.
Proof.
  intros [Hd1 Hf1] [Hd2 Hf2]. split; [congruence |].
  intros p Hp. by rewrite Hf2, Hf1.
Qed.

Lemma touches_only_mono ps qs w w' :
  (forall p, p ∈ ps -> p ∈ qs) -> touches_only ps w w' -> touches_only qs w w'.
Proof. intros Hsub [Hd Hf]. split; [done |]. intros p Hp. apply Hf. auto. Qed.

Lemma progress_grows_refl w : progress_grows w w.
Proof. unfold progress_grows. lia. Qed.

Lemma progress_grows_trans w1 w2 w3 :
  progress_grows w1 w2 -> progress_grows w2 w3 -> progress_grows w1 w3.
Proof. unfold progress_grows. lia. Qed.

Section WorkerFootprint.

Variables (E : env) (url out : string) (start end_ : Z) (sp : string).
Variables (retries : Z) (backoff : Q).

Let ps : list string := [out; sp; sp +:+ ".tmp"].

Lemma touches_http rq : keeps (touches_only ps) (http E rq).
Proof. intros w r w' [-> _]%http_inv. by split. Qed.

Lemma touches_sleep k : keeps (touches_only ps) (sleep backoff k).
Proof. intros w r w' [= <- <-]. by split. Qed.

Lemma touches_count (f : world -> Z) :
  keeps (touches_only ps) (fun w => (Ret tt, set_progress (f w) w)).
Proof. intros w r w' [= <- <-]. by split. Qed.

Lemma touches_write_at off data : keeps (touches_only ps) (_write_at E out off data).
Proof.
  intros w r w' [(e & _ & -> & _) | (c & _ & _ & _ & _ & ->)]%write_at_inv;
    [apply touches_only_refl |].
  split; [done |]. intros p Hp. simpl. rewrite lookup_insert_ne; [done |].
  intros <-. apply Hp. subst ps. apply list_elem_of_here.
Qed.

Lemma touches_write_state v : keeps (touches_only ps) (_write_state E sp v).
Proof.
  intros w r w' H. apply write_state_inv in H as [(e & _ & Hd & Hf) | (_ & Hd & Hf)].
  - split; [done |]. intros p Hp. apply Hf. intros ->. apply Hp. subst ps.
    do 2 apply list_elem_of_further. apply list_elem_of_here.
  - split; [done |]. intros p Hp. rewrite Hf.
    rewrite lookup_insert_ne, lookup_delete_ne; [done | |].
    + intros <-. apply Hp. subst ps. do 2 apply list_elem_of_further. apply list_elem_of_here.
    + intros <-. apply Hp. subst ps. apply list_elem_of_further, list_elem_of_here.
Qed.

Local Ltac touches_step :=
  repeat first
    [ apply keeps_bind; [apply touches_only_trans | | intros ?]
    | apply keeps_try_catch; [apply touches_only_trans | | intros ?]
    | apply keeps_ret; apply touches_only_refl
    | apply keeps_raise; apply touches_only_refl
    | apply keeps_read_state; apply touches_only_refl
    | apply keeps_open_wronly; apply touches_only_refl
    | apply keeps_raise_for_status; apply touches_only_refl
    | apply keeps_end_of_stream; apply touches_only_refl
    | apply touches_http | apply touches_sleep | apply touches_count
    | apply touches_write_at | apply touches_write_state
    | match goal with
      | |- keeps _ (if ?b then _ else _) => destruct b
      | |- keeps _ (match ?x with _ => _ end) => destruct x
      end ].

Lemma touches_stream_part cs : forall off d,
  keeps (touches_only ps) (stream_part E out sp cs off d).
Proof.
  induction cs as [|[chunk due] cs IH]; intros off d; simpl.
  - touches_step.
  - destruct chunk as [|b chunk]; [apply IH |]. touches_step. apply IH.
Qed.

Lemma touches_fetch_range K :
  keeps (touches_only ps) (fetch_range E url out start end_ sp K).
Proof. unfold fetch_range. touches_step. apply touches_stream_part. Qed.

Lemma touches_attempts fuel : forall attempt,
  keeps (touches_only ps) (attempts E url out start end_ sp retries backoff fuel attempt).
Proof.
  induction fuel as [|fuel IH]; intros attempt; simpl.
  - touches_step.
  - touches_step; first [apply touches_fetch_range | apply touches_stream_part | apply IH].
Qed.

Lemma grows_http rq : keeps progress_grows (http E rq).
Proof. intros w r w' [-> _]%http_inv. unfold progress_grows; simpl; lia. Qed.

Lemma grows_sleep k : keeps progress_grows (sleep backoff k).
Proof. intros w r w' [= <- <-]. unfold progress_grows; simpl; lia. Qed.

Lemma grows_write_at off data : keeps progress_grows (_write_at E out off data).
Proof.
  intros w r w' [(e & _ & -> & _) | (c & _ & _ & _ & _ & ->)]%write_at_inv;
    unfold progress_grows; simpl; lia.
Qed.

Lemma grows_write_state v : keeps progress_grows (_write_state E sp v).
Proof.
  intros w r w'. unfold _write_state.
  repeat case_match; intros [= <- <-]; unfold progress_grows; simpl; lia.
Qed.

Lemma grows_count (n : nat) :
  keeps progress_grows (fun w => (Ret tt, set_progress (progress w + Z.of_nat n) w)).
Proof. intros w r w' [= <- <-]. unfold progress_grows. simpl. lia. Qed.

Local Ltac grows_step :=
  repeat first
    [ apply keeps_bind; [apply progress_grows_trans | | intros ?]
    | apply keeps_try_catch; [apply progress_grows_trans | | intros ?]
    | apply keeps_ret; apply progress_grows_refl
    | apply keeps_raise; apply progress_grows_refl
    | apply keeps_read_state; apply progress_grows_refl
    | apply keeps_open_wronly; apply progress_grows_refl
    | apply keeps_raise_for_status; apply progress_grows_refl
    | apply keeps_end_of_stream; apply progress_grows_refl
    | apply grows_http | apply grows_sleep | apply grows_count
    | apply grows_write_at | apply grows_write_state
    | match goal with
      | |- keeps _ (if ?b then _ else _) => destruct b
      | |- keeps _ (match ?x with _ => _ end) => destruct x
      end ].

Lemma grows_stream_part cs : forall off d,
  keeps progress_grows (stream_part E out sp cs off d).
Proof.
  induction cs as [|[chunk due] cs IH]; intros off d; simpl.
  - grows_step.
  - destruct chunk as [|b chunk]; [apply IH |]. grows_step. apply IH.
Qed.

Lemma grows_fetch_range K :
  keeps progress_grows (fetch_range E url out start end_ sp K).
Proof. unfold fetch_range. grows_step. apply grows_stream_part. Qed.

Lemma grows_attempts fuel : forall attempt,
  keeps progress_grows (attempts E url out start end_ sp retries backoff fuel attempt).
Proof.
  induction fuel as [|fuel IH]; intros attempt; simpl.
  - grows_step.
  - grows_step; first [apply grows_fetch_range | apply grows_stream_part | apply IH].
Qed.

End WorkerFootprint.

(** X13.  Whatever happens to it, a worker changes no directory and no
    file other than the output file, its own state file and that state
    file's temporary sibling; and it never lowers the shared progress
    counter. *)
Theorem worker_footprint E url out start end_ sp retries backoff w r w' :
  download_part_direct E url out start end_ sp retries backoff w = (r, w') ->
  touches_only [out; sp; sp +:+ ".tmp"] w w' /\ progress w <= progress w'.
Proof.
  intros H. split.
  - revert w r w' H. unfold download_part_direct.
    apply keeps_bind; [apply touches_only_trans | | intros ?].
    + apply keeps_open_wronly; apply touches_only_refl.
    + apply touches_attempts.
  - revert w r w' H. unfold download_part_direct.
    apply (keeps_bind progress_grows); [apply progress_grows_trans | | intros ?].
    + apply keeps_open_wronly; apply progress_grows_refl.
    + apply grows_attempts.
Qed.

Lemma worker_footprint_witness :
  let run := download_part_direct (Env (range_server 10) no_faults) "u" "o" 0 9 "s" 5 (3 # 2)
               resumed_world in
  touches_only ["o"; "s"; "s" +:+ ".tmp"] resumed_world (snd run) /\
  progress resumed_world <= progress (snd run).
Proof.
  intros run.
  apply (worker_footprint (Env (range_server 10) no_faults) "u" "o" 0 9 "s" 5 (3 # 2)
           resumed_world (fst run) (snd run)).
  apply surjective_pairing.
Defined.

(** ** The chunk loop *)

Lemma splice_nil c off : (off <= length c)%nat -> splice c off [] = c.
Proof.
  intros H. unfold splice. rewrite resize_le by done. simpl.
  rewrite Nat.add_0_r. apply take_drop.
Qed.

Lemma write_state_keeps_file E sp v w r w' p :
  _write_state E sp v w = (r, w') -> p <> sp -> p <> sp +:+ ".tmp" ->
  files w' !! p = files w !! p /\ progress w' = progress w.
Proof.
  intros H H1 H2. split.
  - apply write_state_inv in H as [(e & _ & _ & Hf) | (_ & _ & Hf)]; [by apply Hf |].
    rewrite Hf. by rewrite lookup_insert_ne, lookup_delete_ne.
  - unfold _write_state in H. repeat case_match; by simplify_eq.
Qed.

Lemma received_cons chunk due cs :
  received ((chunk, due) :: cs) = Z.of_nat (length chunk) + received cs.
Proof. unfold received; simpl. rewrite length_app. lia. Qed.

Lemma stream_part_exact E out sp cs : forall off d w c d' w',
  out <> sp -> out <> sp +:+ ".tmp" ->
  files w !! out = Some c -> 0 <= off -> (Z.to_nat off <= length c)%nat ->
  stream_part E out sp cs off d w = (Ret d', w') ->
  d' = d + received cs /\
  files w' !! out = Some (splice c (Z.to_nat off) (concat (map fst cs))) /\
  progress w' = progress w + received cs.
Proof.
  induction cs as [|[chunk due] cs IH]; intros off d w c d' w' Hsp Htmp Hc Hoff Hin; simpl.
  - intros [= <- <-]. unfold received; simpl.
    rewrite splice_nil by done. split; [lia |]. split; [done | lia].
  - rewrite received_cons. destruct chunk as [|b chunk].
    + intros H. eapply IH in H; done.
    + intros H.
      apply bind_inv in H as [([] & w1 & H1 & H) | (e & _ & ?)]; [| done].
      apply write_at_inv in H1 as [(e & ? & _) | (c0 & _ & Hf & _ & Hc0 & ->)]; [done |].
      rewrite Hc in Hc0. injection Hc0 as <-.
      apply bind_inv in H as [([] & w2 & H2 & H) | (e & _ & ?)]; [| done].
      injection H2 as <-.
      apply bind_inv in H as [([] & w3 & H3 & H) | (e & _ & ?)]; [| done].
      assert (Hw3 : files w3 !! out = Some (splice c (Z.to_nat off) (b :: chunk)) /\
                    progress w3 = progress w + Z.of_nat (length (b :: chunk))).
      { destruct due.
        - eapply write_state_keeps_file in H3 as [-> ->]; [| done..].
          simpl. by rewrite lookup_insert_eq.
        - injection H3 as <-. simpl. by rewrite lookup_insert_eq. }
      destruct Hw3 as [Hc3 Hp3].
      eapply IH in H as (Hd & Hfile & Hprog); [| done | done | exact Hc3 | lia |].
      * split; [lia |]. split; [| lia].
        rewrite Hfile.
        replace (Z.to_nat (off + Z.of_nat (length (b :: chunk))))
          with (Z.to_nat off + length (b :: chunk))%nat by lia.
        by rewrite splice_splice.
      * rewrite splice_length. lia.
Qed.



(** ** Rejections and edge cases of the worker *)

Lemma prefix_append (p s : string) : String.prefix p (p +:+ s) = true.
Proof.
  induction p as [|c p IH]; simpl; [by destruct s |].
  rewrite ?append_cons. simpl. destruct (ascii_dec c c); [exact IH | done].
Qed.

(** X15.  A ranged reply that is not a 206, or is a 206 without
    [Content-Range], ends the worker at once: one request, no pause, no
    retry, nothing written.  The message is
    ["range_not_honored_status_<code>"] in the first case, which is the
    prefix the orchestrator looks for, and ["missing_content_range"] in
    the second, which does not have that prefix. *)
Theorem worker_rejection E url out start end_ sp retries backoff w rsp :
  let K := confirmed E sp w in
  let rq := Get url (Some (start + K, end_)) in
  0 <= retries ->
  os_open_wronly E out w = (Ret tt, w) ->
  K < end_ - start + 1 ->
  serve E (trace w) rq = Reply rsp ->
  status_code rsp <> 206 \/ content_range rsp = None ->
  exists msg,
    download_part_direct E url out start end_ sp retries backoff w
    = (Ret (false, msg), log (EvRequest rq) w) /\
    (status_code rsp <> 206 ->
       msg = "range_not_honored_status_" +:+ Py.str (status_code rsp) /\
       Py.startswith msg "range_not_honored_status_" = true) /\
    (status_code rsp = 206 ->
       msg = "missing_content_range" /\
       Py.startswith msg "range_not_honored_status_" = false).
Proof.
  intros K rq Hr Ho HK Hs Hrej.
  unfold download_part_direct, bind at 1. rewrite Ho.
  assert (Hfuel : Z.to_nat (retries + 1) = S (Z.to_nat retries)) by lia.
  rewrite Hfuel. simpl.
  destruct (retries <? 0) eqn:Hneg; [lia |].
  assert (Hle : (0 <=? retries) = true) by lia. rewrite Hle. simpl.
  unfold bind at 1. rewrite read_state_eq. fold K.
  destruct (K >=? end_ - start + 1) eqn:Hge; [lia |].
  unfold try_catch, fetch_range, bind at 1, http. fold rq. rewrite Hs.
  destruct (status_code rsp =? 206) eqn:H206; simpl.
  - apply Z.eqb_eq in H206. destruct Hrej as [? | Hcr]; [done |]. rewrite Hcr.
    eexists. split; [reflexivity |]. split; [done |]. intros _. split; reflexivity.
  - apply Z.eqb_neq in H206.
    eexists. split; [reflexivity |]. split; [| done]. intros _. split; [done |].
    apply prefix_append.
Qed.

Lemma worker_rejection_witness :
  exists msg,
    download_part_direct (Env (server_no_content_range 10) no_faults)
      "u" "o" 0 9 "s" 5 (3 # 2) resumed_world
    = (Ret (false, msg), log (EvRequest (Get "u" (Some (4, 9)))) resumed_world) /\
    msg = "missing_content_range".
Proof.
  destruct (worker_rejection (Env (server_no_content_range 10) no_faults)
              "u" "o" 0 9 "s" 5 (3 # 2) resumed_world
              (Response 206 None None (block 6) None))
    as (msg & Hrun & _ & Hmsg).
  - lia.
  - reflexivity.
  - vm_compute. reflexivity.
  - reflexivity.
  - right. reflexivity.
  - exists msg. split; [exact Hrun |]. apply Hmsg. reflexivity.
Defined.

(** X16.  Two ways a worker ends before any request.  With a negative
    retry budget the loop body never runs: the worker returns
    [(False, "unknown")] and leaves the world alone, even for a segment
    that is already complete.  When the output file cannot be opened for
    writing, the exception of [os.open] leaves the worker, again with the
    world untouched. *)
Theorem worker_ends_before_request E url out start end_ sp retries backoff w :
  (retries < 0 -> os_open_wronly E out w = (Ret tt, w) ->
   download_part_direct E url out start end_ sp retries backoff w
   = (Ret (false, "unknown"), w)) /\
  (forall e, os_open_wronly E out w = (Raise e, w) ->
   download_part_direct E url out start end_ sp retries backoff w = (Raise e, w)).
Proof.
  split.
  - intros Hr Ho. unfold download_part_direct, bind. rewrite Ho.
    by replace (Z.to_nat (retries + 1)) with 0%nat by lia.
  - intros e Ho. unfold download_part_direct, bind. by rewrite Ho.
Qed.

Lemma worker_ends_before_request_witness :
  download_part_direct (Env (range_server 10) no_faults) "u" "o" 0 3 "s" (-1) (3 # 2)
    resumed_world
  = (Ret (false, "unknown"), resumed_world).
Proof.
  apply (proj1 (worker_ends_before_request (Env (range_server 10) no_faults)
                  "u" "o" 0 3 "s" (-1) (3 # 2) resumed_world)).
  - lia.
  - reflexivity.
Defined.

(** ** The planner, continued *)

Lemma planned_bytes_app t1 t2 :
  planned_bytes (t1 ++ t2) = planned_bytes t1 + planned_bytes t2.
Proof. unfold planned_bytes. induction t1 as [|t t1 IH]; simpl; lia. Qed.

Lemma planned_bytes_const (f : Z -> task) (len : Z) (l : list Z) :
  Forall (fun i => task_expected (f i) = len) l ->
  planned_bytes (map f l) = Z.of_nat (length l) * len.
Proof.
  unfold planned_bytes. induction 1 as [|i l Hi _ IH]; simpl; [lia |].
  rewrite IH, Hi. lia.
Qed.



Lemma append_assoc (s t u : string) : (s +:+ t) +:+ u = s +:+ (t +:+ u).
Proof.
  induction s as [|c s IH]; [done |].
  rewrite !append_cons. by rewrite IH.
Qed.

(** X18.  The state files of a plan are pairwise distinct, each lies
    directly below the state directory, and none of them is the output
    file when the state directory is the one [parallel_download] uses. *)
Theorem plan_state_files out size parts :
  let state_dir := out +:+ ".parts" in
  let states := map task_state (plan_tasks state_dir size parts) in
  NoDup states /\
  (forall p, p ∈ states -> inside state_dir p = true /\ p <> out).
Proof.
  intros state_dir states. split; [apply plan_states_NoDup |].
  intros p Hp. subst states. rewrite plan_states in Hp.
  apply list_elem_of_fmap in Hp as (i & -> & _). split.
  - unfold inside, state_path_of.
    rewrite <- (append_assoc state_dir "/"). apply prefix_append.
  - intros H. apply (f_equal String.length) in H.
    unfold state_path_of, state_dir in H. rewrite !string_length_app in H.
    simpl in H. lia.
Qed.

(** ** The pool of workers *)

Lemma touches_download_part_direct E url out start end_ sp retries backoff :
  keeps (touches_only [out; sp; sp +:+ ".tmp"])
    (download_part_direct E url out start end_ sp retries backoff).
Proof.
  unfold download_part_direct.
  apply keeps_bind; [apply touches_only_trans | | intros ?].
  - apply keeps_open_wronly; apply touches_only_refl.
  - apply touches_attempts.
Qed.

Lemma grows_download_part_direct E url out start end_ sp retries backoff :
  keeps progress_grows (download_part_direct E url out start end_ sp retries backoff).
Proof.
  unfold download_part_direct.
  apply keeps_bind; [apply progress_grows_trans | | intros ?].
  - apply keeps_open_wronly; apply progress_grows_refl.
  - apply grows_attempts.
Qed.


(** X20.  The initial value of the shared counter.  When no state file
    records a negative count and no planned length is negative,
    [init_progress] adds to the counter an amount between 0 and the sum of
    the planned lengths, and changes nothing else in the world. *)
Theorem init_progress_bounds E tasks : forall w,
  (forall t, In t tasks -> 0 <= confirmed E (task_state t) w) ->
  (forall t, In t tasks -> 0 <= task_expected t) ->
  exists p, init_progress E tasks w = (Ret tt, set_progress p w) /\
            progress w <= p <= progress w + planned_bytes tasks.
Proof.
  induction tasks as [|t tasks IH]; intros w Hc He; simpl.
  - exists (progress w). split; [by destruct w |]. unfold planned_bytes; simpl. lia.
  - unfold bind at 1. rewrite read_state_eq. unfold bind at 1.
    set (w1 := set_progress _ w).
    destruct (IH w1) as (p & Hrun & Hp).
    + intros t' Ht'. rewrite (confirmed_same_files E _ w1 w eq_refl). apply Hc. by right.
    + intros t' Ht'. apply He. by right.
    + unfold bind. rewrite Hrun. exists p. split; [done |].
      pose proof (Hc t (or_introl eq_refl)). pose proof (He t (or_introl eq_refl)).
      subst w1. simpl in Hp. unfold planned_bytes in *. simpl. lia.
Qed.

Lemma init_progress_bounds_witness :
  exists p, init_progress (Env (range_server 4) no_faults) (plan_tasks "o.parts" 4 2)
              stale_world
            = (Ret tt, set_progress p stale_world) /\
            0 <= p <= 4.
Proof.
  destruct (init_progress_bounds (Env (range_server 4) no_faults)
              (plan_tasks "o.parts" 4 2) stale_world) as (p & Hrun & Hp).
  - intros t [<- | [<- | []]]; vm_compute; discriminate.
  - intros t [<- | [<- | []]]; vm_compute; discriminate.
  - exists p. split; [exact Hrun |]. exact Hp.
Defined.

(** ** A whole run against a faithful server *)

Lemma probe_known E url data w :
  serves E url data -> (0 < length data)%nat ->
  probe_size_and_range E url w
  = (Ret (Z.of_nat (length data), true),
     log (EvRequest (Get url (Some (0, 0)))) (log (EvRequest (Head url)) w)).
Proof.
  intros [Hhead Hget] Hlen.
  destruct (Hhead (trace w)) as (rh & Hh & Hst & Hcl).
  destruct (Hget (trace w ++ [EvRequest (Head url)]) 0 0 ltac:(lia) ltac:(lia))
    as (r & cr & Hg & H206 & Hcr & _).
  unfold probe_size_and_range, bind at 1.
  assert (Hp : probe_head E url w
               = (Ret (Z.of_nat (length data)), log (EvRequest (Head url)) w)).
  { unfold probe_head, try_catch, bind at 1, http. rewrite Hh.
    unfold bind, raise_for_status.
    destruct ((400 <=? status_code rh) && (status_code rh <? 600)) eqn:H.
    { apply andb_true_iff in H. lia. }
    unfold ret at 1. rewrite Hcl.
    pose proof (str_nonempty (Z.of_nat (length data))) as Hne.
    destruct (Py.str (Z.of_nat (length data))) eqn:Hs; [done |].
    rewrite <- Hs, int_str. done. }
  rewrite Hp. unfold probe_get, try_catch, bind, http. simpl trace. rewrite Hg, Hcr, H206.
  assert (Hz : (Z.of_nat (length data) =? 0) = false) by lia. rewrite Hz. simpl.
  try rewrite bool_decide_eq_true_2 by eauto. done.
Qed.

Lemma presize_fault_free E out size w :
  fault_free E -> 0 <= size -> out ∉ dirs w ->
  exists c w',
    presize_output E out size w = (Ret true, w') /\
    files w' = <[out := c]> (files w) /\ Z.of_nat (length c) = size /\
    dirs w' = dirs w /\ trace w' = trace w /\ progress w' = progress w.
Proof.
  intros Hff Hs Hdir.
  unfold presize_output, bind at 1, os_path_exists. rewrite Hff. simpl.
  rewrite (bool_decide_eq_false_2 (out ∈ dirs w)) by done. rewrite orb_false_r.
  destruct (files w !! out) as [c|] eqn:Hc.
  - rewrite bool_decide_eq_true_2 by eauto. simpl.
    unfold try_catch, bind at 1, os_path_getsize. rewrite Hff, Hc.
    destruct (Z.of_nat (length c) =? size) eqn:Hsz; simpl.
    + exists c, w. apply Z.eqb_eq in Hsz. split; [done |].
      split; [by rewrite insert_id |]. done.
    + unfold bind at 1, open_rpb. rewrite Hff, Hc.
      unfold bind, truncate. rewrite Hff, Hc. simpl.
      destruct (size <? 0) eqn:Hneg; [lia |].
      eexists _, _. split; [reflexivity |]. simpl.
      split; [done |]. split; [rewrite length_resize; lia | done].
  - rewrite bool_decide_eq_false_2 by (intros [? ?]; done). simpl.
    unfold bind at 1, open_wb. rewrite Hff. simpl.
    rewrite bool_decide_eq_false_2 by done.
    unfold bind, truncate. rewrite Hff. simpl. rewrite lookup_insert_eq.
    destruct (size <? 0) eqn:Hneg; [lia |].
    eexists _, _. split; [reflexivity |]. simpl.
    split; [by rewrite insert_insert_eq |].
    split; [rewrite length_resize; lia | done].
Qed.

Lemma init_progress_nothing E tasks : forall w,
  (forall t, In t tasks -> confirmed E (task_state t) w = 0 /\ 0 <= task_expected t) ->
  init_progress E tasks w = (Ret tt, w).
Proof.
  induction tasks as [|t tasks IH]; intros w H; simpl; [done |].
  destruct (H t (or_introl eq_refl)) as [Hc He].
  unfold bind at 1. rewrite read_state_eq, Hc. unfold bind at 1.
  rewrite Z.min_l by done. rewrite Z.add_0_r.
  assert (Hw : set_progress (progress w) w = w) by by destruct w.
  rewrite Hw. unfold bind. rewrite IH; [done |]. intros t' Ht'. apply H. by right.
Qed.

(** Without faults, with the output file in place and the state paths
    free of directories, the chunk loop runs to the end of the stream. *)
Lemma stream_part_runs E out sp cs : forall off d w,
  fault_free E -> 0 <= off ->
  out <> sp -> out <> sp +:+ ".tmp" ->
  is_Some (files w !! out) ->
  (sp ∉ dirs w) -> (sp +:+ ".tmp" ∉ dirs w) ->
  exists d' w', stream_part E out sp cs off d w = (Ret d', w') /\ dirs w' = dirs w.
Proof.
  induction cs as [|[chunk due] cs IH];
    intros off d w Hff Hoff Hne Hne' [c Hc] Hsp Htmp; simpl.
  - by exists d, w.
  - destruct chunk as [|b chunk]; [apply IH; eauto |].
    unfold bind at 1. rewrite (write_at_ok E out off (b :: chunk) w c) by (done || apply Hff).
    unfold bind at 1. unfold bind at 1.
    set (w2 := set_progress _ _).
    assert (Hflush : exists w3,
              (if due then _write_state E sp (d + Z.of_nat (length (b :: chunk))) else ret tt) w2
              = (Ret tt, w3) /\ dirs w3 = dirs w /\ is_Some (files w3 !! out)).
    { destruct due.
      - unfold _write_state. rewrite !Hff. simpl.
        rewrite !bool_decide_eq_false_2 by done.
        eexists. split; [reflexivity |]. split; [done |]. simpl.
        rewrite lookup_insert_ne, lookup_delete_ne by done.
        rewrite lookup_insert_eq. eauto.
      - exists w2. split; [done |]. split; [done |]. simpl.
        rewrite lookup_insert_eq. eauto. }
    destruct Hflush as (w3 & -> & Hd3 & Hex3).
    destruct (IH (off + Z.of_nat (length (b :: chunk))) (d + Z.of_nat (length (b :: chunk))) w3)
      as (d' & w' & Hrun & Hd'); try done; try lia; try by rewrite Hd3.
    exists d', w'. split; [done | congruence].
Qed.

Lemma write_state_runs E sp v w :
  fault_free E -> (sp ∉ dirs w) -> (sp +:+ ".tmp" ∉ dirs w) ->
  _write_state E sp v w
  = (Ret tt, set_files (<[sp := list_byte_of_string (Py.str v)]>
                          (delete (sp +:+ ".tmp") (files w))) w).
Proof.
  intros Hff Hsp Htmp. unfold _write_state. rewrite !Hff. simpl.
  by rewrite !bool_decide_eq_false_2 by done.
Qed.

(** One worker against a faithful server, on a segment it has not
    started: a single request, the segment written in place, the state
    file recording the full length. *)
Lemma worker_runs E url data out s e sp retries backoff w c :
  serves E url data -> fault_free E -> 0 <= retries ->
  0 <= s <= e -> e < Z.of_nat (length data) ->
  out <> sp -> out <> sp +:+ ".tmp" ->
  files w !! out = Some c -> length c = length data ->
  files w !! sp = None -> (sp ∉ dirs w) -> (sp +:+ ".tmp" ∉ dirs w) ->
  exists w',
    download_part_direct E url out s e sp retries backoff w = (Ret (true, "ok"), w') /\
    files w' !! out
    = Some (splice c (Z.to_nat s) (take (Z.to_nat (e - s + 1)) (drop (Z.to_nat s) data))) /\
    files w' !! sp = Some (list_byte_of_string (Py.str (e - s + 1))) /\
    files w' !! (sp +:+ ".tmp") = None /\
    (forall p, p ∉ [out; sp; sp +:+ ".tmp"] -> files w' !! p = files w !! p) /\
    dirs w' = dirs w /\
    progress w' = progress w + (e - s + 1).
Proof.
  intros [_ Hget] Hff Hr Hse He Hne Hne' Hc Hlen Hsp Hspd Htmpd.
  assert (HK : confirmed E sp w = 0).
  { unfold confirmed, _read_state. by rewrite Hff, Hsp. }
  destruct (Hget (trace w) s e Hse He) as (r & cr & Hs & H206 & Hcr & Herr & Hbody).
  unfold download_part_direct, bind at 1, os_open_wronly. rewrite Hff, Hc.
  replace (Z.to_nat (retries + 1)) with (S (Z.to_nat retries)) by lia. simpl.
  assert (Hle : (0 <=? retries) = true) by lia. rewrite Hle. simpl.
  unfold bind at 1. rewrite read_state_eq, HK.
  destruct (0 >=? e - s + 1) eqn:Hge; [lia |].
  unfold try_catch.
  assert (Hfetch : exists w',
    fetch_range E url out s e sp 0 w = (Ret (true, "ok"), w') /\
    files w' !! out
    = Some (splice c (Z.to_nat s) (take (Z.to_nat (e - s + 1)) (drop (Z.to_nat s) data))) /\
    files w' !! sp = Some (list_byte_of_string (Py.str (e - s + 1))) /\
    files w' !! (sp +:+ ".tmp") = None /\
    (forall p, p ∉ [out; sp; sp +:+ ".tmp"] -> files w' !! p = files w !! p) /\
    dirs w' = dirs w /\
    progress w' = progress w + (e - s + 1)).
  { unfold fetch_range, bind at 1, http. rewrite Z.add_0_r, Hs, H206, Hcr. simpl.
    unfold bind at 1, raise_for_status. rewrite H206. simpl. unfold ret at 1.
    set (w1 := log _ w).
    destruct (stream_part_runs E out sp (chunks r) s 0 w1 Hff ltac:(lia) Hne Hne'
                (ex_intro _ c Hc) Hspd Htmpd) as (d & w3 & Hrun & Hd3).
    unfold bind at 1. rewrite Hrun.
    pose proof (stream_part_exact E out sp (chunks r) s 0 w1 c d w3
                  Hne Hne' Hc ltac:(lia) ltac:(lia) Hrun) as (Hdv & Hout & Hprog).
    pose proof (touches_stream_part E out sp (chunks r) s 0 w1 _ _ Hrun) as [_ Hother].
    assert (Hrecv : received (chunks r) = e - s + 1).
    { change (received (chunks r)) with (Z.of_nat (length (body r))).
      rewrite Hbody, length_take, length_drop. lia. }
    assert (Hd : d = e - s + 1) by lia.
    unfold bind at 1, end_of_stream. rewrite Herr. unfold ret at 1.
    unfold bind at 1. rewrite write_state_runs by (done || by rewrite Hd3).
    unfold bind. rewrite read_state_eq.
    set (w4 := set_files _ w3).
    assert (Hconf : confirmed E sp w4 = d).
    { eapply (write_state_confirmed E sp d w3 w4); [| apply Hff].
      by rewrite write_state_runs by (done || by rewrite Hd3). }
    rewrite Hconf.
    destruct (d >=? e - s + 1) eqn:Hge'; [| lia].
    exists w4. split; [done |]. subst w4. simpl.
    split.
    { rewrite lookup_insert_ne, lookup_delete_ne by done.
      rewrite Hout. by change (concat (map fst (chunks r))) with (body r); rewrite Hbody. }
    split; [by rewrite lookup_insert_eq, Hd |].
    split.
    { rewrite lookup_insert_ne by (intros H; by apply (tmp_differs sp)).
      apply lookup_delete_eq. }
    split.
    { intros p Hp. rewrite !not_elem_of_cons in Hp. destruct Hp as (H1 & H2 & H3 & _).
      rewrite lookup_insert_ne, lookup_delete_ne by done.
      apply Hother. rewrite !not_elem_of_cons. repeat split; try done. apply not_elem_of_nil. }
    split; [done |]. rewrite Hprog. subst w1. simpl. lia. }
  destruct Hfetch as (w' & -> & H). exists w'. split; [done | exact H].
Qed.

Lemma last_char_app (s t : string) : t <> "" -> last_char (s +:+ t) = last_char t.
Proof.
  intros Ht. induction s as [|c s IH]; [done |].
  rewrite append_cons. simpl. rewrite IH.
  destruct (s +:+ t) eqn:Hst; [| done].
  destruct s; [by rewrite append_nil_l in Hst | by rewrite append_cons in Hst].
Qed.

(** A state file is never the temporary sibling of another one. *)
Lemma state_path_not_tmp state_dir i j :
  state_path_of state_dir i <> state_path_of state_dir j +:+ ".tmp".
Proof.
  intros H. apply (f_equal last_char) in H. unfold state_path_of in H.
  rewrite last_char_app in H by (rewrite <- !append_assoc; by destruct (_ +:+ pad4 i)).
  rewrite (last_char_app _ ".tmp") in H by done.
  rewrite <- !append_assoc in H. rewrite last_char_app in H by done. done.
Qed.

Lemma state_path_longer out i : 
  (String.length out < String.length (state_path_of (out +:+ ".parts") i))%nat.
Proof. unfold state_path_of. rewrite !string_length_app. simpl. lia. Qed.

Lemma state_path_not_out out i : out <> state_path_of (out +:+ ".parts") i.
Proof.
  intros H. pose proof (state_path_longer out i) as Hl. rewrite <- H in Hl. lia.
Qed.

Lemma state_tmp_not_out out i : out <> state_path_of (out +:+ ".parts") i +:+ ".tmp".
Proof.
  intros H. pose proof (state_path_longer out i) as Hl.
  apply (f_equal String.length) in H. rewrite string_length_app in H. lia.
Qed.

Lemma inside_state_path state_dir i : inside state_dir (state_path_of state_dir i) = true.
Proof.
  unfold inside, state_path_of. rewrite <- (append_assoc state_dir "/"). apply prefix_append.
Qed.

Lemma inside_state_tmp state_dir i :
  inside state_dir (state_path_of state_dir i +:+ ".tmp") = true.
Proof.
  unfold inside, state_path_of. rewrite <- (append_assoc state_dir "/"), append_assoc.
  apply prefix_append.
Qed.

Lemma prefix_length (p s : string) :
  String.prefix p s = true -> (String.length p <= String.length s)%nat.
Proof.
  revert s. induction p as [|c p IH]; intros s; simpl; [lia |].
  destruct s as [|c' s]; [done |]. simpl.
  destruct (ascii_dec c c'); [| done]. intros H%IH. lia.
Qed.

Lemma not_inside_self state_dir : inside state_dir state_dir = false.
Proof.
  destruct (inside state_dir state_dir) eqn:H; [| done].
  apply prefix_length in H. rewrite string_length_app in H. simpl in H. lia.
Qed.

Lemma not_inside_out out : inside (out +:+ ".parts") out = false.
Proof.
  destruct (inside (out +:+ ".parts") out) eqn:H; [| done].
  apply prefix_length in H. rewrite !string_length_app in H. simpl in H. lia.
Qed.

Lemma plan_tasks_nth state_dir size parts :
  plan_tasks state_dir size parts = map (nth_task state_dir size parts) (seqZ 0 parts).
Proof. reflexivity. Qed.

Lemma confirmed_of_text E p v w :
  fault E OpRead p = false ->
  files w !! p = Some (list_byte_of_string (Py.str v)) ->
  confirmed E p w = v.
Proof.
  intros Hr Hf. unfold confirmed, _read_state. rewrite Hr, Hf. simpl.
  rewrite string_of_list_byte_of_string.
  rewrite strip_plain by apply str_plain.
  pose proof (str_nonempty v). rewrite int_str. by destruct (Py.str v).
Qed.

Section FaithfulRun.

Variables (E : env) (url out : string) (data : list byte) (parts retries : Z).
Variable w0 : world.

Let state_dir : string := out +:+ ".parts".
Let size : Z := Z.of_nat (length data).
Let len : Z := part_size_of size parts.

Hypothesis serves_data : serves E url data.
Hypothesis no_fault : fault_free E.
Hypothesis retries_nonneg : 0 <= retries.
Hypothesis size_pos : 0 < size.
Hypothesis parts_pos : 1 <= parts.
Hypothesis last_inside : (parts - 1) * len < size.
Hypothesis clean : clean_start out w0.

Lemma segment_bounds k :
  0 <= k < parts ->
  let t := nth_task state_dir size parts k in
  0 <= task_start t <= task_end t /\ task_end t < size /\
  task_start t = covered size parts k /\
  task_end t + 1 = covered size parts (k + 1) /\
  task_expected t = covered size parts (k + 1) - covered size parts k.
Proof.
  intros Hk t. subst t.
  pose proof (part_size_bounds size parts size_pos parts_pos) as (Hlen & Hup & _).
  fold len in Hlen, Hup.
  unfold nth_task, task_expected, task_start, task_end, covered; simpl. fold len.
  assert (k * len <= (parts - 1) * len) by nia.
  repeat split; lia.
Qed.

Lemma run_inv_step k w w' c :
  0 <= k < parts ->
  run_inv out data parts w0 k w ->
  files w !! out = Some c ->
  let t := nth_task state_dir size parts k in
  files w' !! out
  = Some (splice c (Z.to_nat (task_start t))
            (take (Z.to_nat (task_expected t)) (drop (Z.to_nat (task_start t)) data))) ->
  files w' !! task_state t = Some (list_byte_of_string (Py.str (task_expected t))) ->
  files w' !! (task_state t +:+ ".tmp") = None ->
  (forall p, p ∉ [out; task_state t; task_state t +:+ ".tmp"] ->
     files w' !! p = files w !! p) ->
  dirs w' = dirs w ->
  progress w' = progress w + task_expected t ->
  run_inv out data parts w0 (k + 1) w'.
Proof.
  intros Hk (Hout & Hdone & Hin & Hother & Hdirs & Hprog) Hc t Hc' Hst Htmp Hframe Hd' Hp'.
  destruct (segment_bounds k Hk) as (Hse & He & Hs & Hnext & Hexp). fold t in Hse, He, Hs, Hnext, Hexp.
  destruct Hout as (c0 & Hc0 & Hlen0 & Hfill). rewrite Hc in Hc0. injection Hc0 as <-.
  fold size in Hfill, Hprog, Hdone.
  assert (Hsp : task_state t = state_path_of state_dir k) by done.
  unfold run_inv. fold state_dir size.
  split; [| split; [| split; [| split; [| split]]]].
  - eexists. split; [exact Hc' |]. split.
    + rewrite splice_length, length_take, length_drop. fold size in He. lia.
    + intros i Hi. rewrite splice_lookup.
      case_decide as H1.
      * rewrite <- Hfill by lia.
        destruct (lookup_lt_is_Some_2 c i) as [b ->]; [lia | done].
      * rewrite length_take, length_drop.
        case_decide as H2; [| lia].
        rewrite lookup_take_lt by lia. rewrite lookup_drop. f_equal. lia.
  - intros j Hj. destruct (decide (j = k)) as [-> | Hne]; [by rewrite <- Hsp |].
    rewrite Hframe; [apply Hdone; lia |].
    rewrite !not_elem_of_cons. split; [| split; [| split; [| apply not_elem_of_nil]]].
    + intros H. symmetry in H. by apply state_path_not_out in H.
    + rewrite Hsp. intros H. apply state_path_of_inj in H; lia.
    + rewrite Hsp. apply state_path_not_tmp.
  - intros p Hp [x Hx].
    destruct (decide (p = task_state t)) as [-> | H1]; [exists k; split; [lia | done] |].
    destruct (decide (p = task_state t +:+ ".tmp")) as [-> | H2]; [congruence |].
    destruct (decide (p = out)) as [-> | H3].
    { fold state_dir in Hp. unfold state_dir in Hp. by rewrite not_inside_out in Hp. }
    rewrite Hframe in Hx.
    + destruct (Hin p Hp (ex_intro _ x Hx)) as (j & Hj & ->). exists j. split; [lia | done].
    + rewrite !not_elem_of_cons. repeat split; try done. apply not_elem_of_nil.
  - intros p Hp Hnin. rewrite Hframe; [by apply Hother |].
    rewrite !not_elem_of_cons. split; [done |]. split; [| split; [| apply not_elem_of_nil]].
    + intros ->. rewrite Hsp in Hnin. by rewrite inside_state_path in Hnin.
    + intros ->. rewrite Hsp in Hnin. by rewrite inside_state_tmp in Hnin.
  - by rewrite Hd', Hdirs.
  - rewrite Hp', Hprog. lia.
Qed.

Lemma run_workers_faithful (n : nat) : forall k w,
  0 <= k -> k + Z.of_nat n = parts ->
  run_inv out data parts w0 k w ->
  exists w',
    run_workers E url out retries
      (map (nth_task state_dir size parts) (seqZ k (Z.of_nat n))) true false w
    = (Ret (true, false), w') /\
    run_inv out data parts w0 parts w'.
Proof.
  induction n as [|n IH]; intros k w Hk Hn Hinv.
  - simpl. exists w. split; [done |]. by replace k with parts in Hinv by lia.
  - rewrite seqZ_cons by lia. cbn [map run_workers].
    set (t := nth_task state_dir size parts k).
    destruct (segment_bounds k ltac:(lia)) as (Hse & He & Hs & Hnext & Hexp).
    fold t in Hse, He, Hs, Hnext, Hexp.
    pose proof Hinv as (Hout & Hdone & Hin & Hother & Hdirs & Hprog).
    destruct Hout as (c & Hc & Hlen & Hfill).
    assert (Hsp : task_state t = state_path_of state_dir k) by done.
    destruct clean as (Hodir & Hsdfile & Hbelow).
    fold state_dir in Hsdfile, Hbelow. fold state_dir in Hdirs.
    assert (Hfree : forall p, inside state_dir p = true -> p ∉ dirs w).
    { intros p Hp. rewrite Hdirs. intros [->%elem_of_singleton | Hd]%elem_of_union.
      - by rewrite not_inside_self in Hp.
      - by apply (Hbelow p Hp). }
    destruct (worker_runs E url data out (task_start t) (task_end t) (task_state t)
                retries (3 # 2) w c) as (w1 & Hrun & H1 & H2 & H3 & H4 & H5 & H6);
      try done.
    + rewrite Hsp. apply state_path_not_out.
    + rewrite Hsp. apply state_tmp_not_out.
    + destruct (files w !! task_state t) eqn:Hf; [| done].
      destruct (Hin (task_state t)) as (j & Hj & Heq); [apply inside_state_path | eauto |].
      rewrite Hsp in Heq. apply state_path_of_inj in Heq; lia.
    + apply Hfree, inside_state_path.
    + apply Hfree. rewrite Hsp. apply inside_state_tmp.
    + unfold bind, future. rewrite Hrun. simpl.
      replace (Z.pred (Z.of_nat (S n))) with (Z.of_nat n) by lia.
      apply (IH (Z.succ k) w1); [lia | lia |].
      replace (Z.succ k) with (k + 1) by lia.
      eapply (run_inv_step k w w1 c); try done; lia.
Qed.

End FaithfulRun.

Lemma cleanup_runs E state_dir tasks w :
  NoDup (map task_state tasks) ->
  (forall t, In t tasks -> is_Some (files w !! task_state t)) ->
  fault_free E ->
  state_dir ∈ dirs w ->
  dir_holds_only state_dir (map task_state tasks) w = true ->
  exists w', cleanup E state_dir tasks w = (Ret tt, w') /\
    (forall p, files w' !! p
               = if bool_decide (p ∈ map task_state tasks) then None else files w !! p) /\
    dirs w' = dirs w ∖ {[state_dir]} /\
    progress w' = progress w.
Proof.
  intros Hnd Hex Hff Hin [Hfiles Hdirs]%andb_true_iff.
  assert (Hprog : forall ts w1 w2,
            remove_states E ts w1 = (Ret tt, w2) -> progress w2 = progress w1).
  { induction ts as [|t ts IH]; intros w1 w2; simpl; [by intros [= <-] |].
    unfold bind, os_remove. repeat case_match; try done; simplify_eq.
    intros H%IH. by rewrite H. }
  destruct (remove_states_spec E tasks w Hnd Hex (Hff OpRemove)) as (w1 & Hrm & Hd1 & Hl1).
  unfold cleanup, try_catch, bind. rewrite Hrm.
  unfold os_rmdir. rewrite Hff.
  rewrite (bool_decide_eq_true_2 (state_dir ∈ dirs w1)) by (by rewrite Hd1). simpl.
  assert (Hempty : dir_is_empty state_dir w1 = true).
  { unfold dir_is_empty. rewrite Hd1, Hdirs, andb_true_r.
    apply forallb_forall. intros p [[p' c] [<- Hp]]%in_map_iff. simpl.
    apply list_elem_of_In, elem_of_map_to_list in Hp. rewrite Hl1 in Hp.
    case_bool_decide as Hmem; [done |].
    rewrite forallb_forall in Hfiles.
    specialize (Hfiles p').
    rewrite (bool_decide_eq_false_2 _ Hmem), orb_false_r in Hfiles.
    apply Hfiles. apply in_map_iff. exists (p', c). split; [done |].
    by apply list_elem_of_In, elem_of_map_to_list. }
  rewrite Hempty. eexists. split; [done |]. simpl.
  split; [done |]. split; [by rewrite Hd1 |]. by apply Hprog in Hrm.
Qed.


Lemma repeat_replicate {A} (x : A) n : repeat x n = replicate n x.
Proof. induction n as [|n IH]; simpl; [done | by rewrite IH]. Qed.

Lemma range_server_serves total F url :
  0 <= total -> serves (Env (range_server total) F) url (payload total).
Proof.
  intros Ht.
  assert (Hlen : Z.of_nat (length (payload total)) = total).
  { unfold payload. rewrite repeat_length. lia. }
  split.
  - intros h. eexists. split; [reflexivity |]. simpl. split; [lia |]. by rewrite Hlen.
  - intros h a b Hab Hb. rewrite Hlen in Hb.
    eexists _, _. split; [reflexivity |]. simpl.
    split; [done |]. split; [done |]. split; [done |].
    unfold body, block, payload. simpl. rewrite app_nil_r.
    rewrite !repeat_replicate, drop_replicate, take_replicate. f_equal. lia.
Qed.


(** ** The sequential path delivers the resource *)

Lemma write_all_runs E out cs : forall w c,
  fault E OpWrite out = false -> files w !! out = Some c ->
  exists w', write_all E out cs w = (Ret tt, w') /\
    files w' = <[out := c ++ concat (map fst cs)]> (files w) /\
    dirs w' = dirs w /\ progress w' = progress w.
Proof.
  induction cs as [|[chunk due] cs IH]; intros w c Hf Hc; simpl.
  - exists w. split; [done |]. rewrite app_nil_r. by rewrite insert_id.
  - destruct chunk as [|b chunk]; [by apply IH |].
    unfold bind, file_write. rewrite Hf, Hc.
    destruct (IH (set_files (<[out := c ++ b :: chunk]> (files w)) w) (c ++ b :: chunk) Hf)
      as (w' & -> & Hf' & Hd' & Hp'); [apply lookup_insert_eq |].
    exists w'. split; [done |]. rewrite Hf'. simpl.
    split; [| done]. by rewrite insert_insert_eq, <- app_assoc.
Qed.

Lemma sequential_runs E url out data w :
  serves_whole E url data ->
  fault E OpCreate out = false -> fault E OpWrite out = false -> (out ∉ dirs w) ->
  exists w', single_thread_download E url out w = (Ret true, w') /\
    files w' = <[out := data]> (files w) /\
    dirs w' = dirs w /\ progress w' = progress w.
Proof.
  intros Hs Hc Hw Hd. destruct (Hs (trace w)) as (r & Hr & Hst & Herr & Hbody).
  unfold single_thread_download, bind at 1, http. rewrite Hr.
  unfold bind at 1, raise_for_status.
  destruct ((400 <=? status_code r) && (status_code r <? 600)) eqn:H.
  { apply andb_true_iff in H. lia. }
  unfold ret at 1. unfold bind at 1, open_wb. rewrite Hc. simpl.
  rewrite bool_decide_eq_false_2 by done.
  set (w2 := set_files _ _).
  destruct (write_all_runs E out (chunks r) w2 [] Hw) as (w3 & Hrun & Hf3 & Hd3 & Hp3);
    [apply lookup_insert_eq |].
  unfold bind at 1. rewrite Hrun.
  unfold bind, end_of_stream. rewrite Herr. unfold ret.
  exists w3. split; [done |]. rewrite Hf3. simpl.
  split; [| done]. rewrite insert_insert_eq. by rewrite <- Hbody.
Qed.

(** X22.  The sequential path delivers the resource.  Against a server
    that answers a plain [GET] with the whole resource, and with the
    output path writable: (1) a run whose probe finds no size or no range
    support, or that was asked for at most one part, returns [True] with
    the output file holding exactly the resource, and creates nothing
    else; (2) after the workers, a run marked for global fallback returns
    [True] with the output file holding exactly the resource, whatever the
    workers had written into it, and leaves every other file (the state
    files among them) and every directory as the workers left them. *)
Theorem sequential_path_delivers E url out data :
  serves_whole E url data ->
  fault E OpCreate out = false -> fault E OpWrite out = false ->
  (forall parts retries w size range_ok w1,
     (out ∉ dirs w) ->
     probe_size_and_range E url w = (Ret (size, range_ok), w1) ->
     size <= 0 \/ range_ok = false \/ parts <= 1 ->
     exists w', parallel_download E url out parts retries w = (Ret true, w') /\
       files w' = <[out := data]> (files w) /\ dirs w' = dirs w) /\
  (forall size state_dir tasks ok w,
     (out ∉ dirs w) ->
     exists w', conclude E url out size state_dir tasks ok true w = (Ret true, w') /\
       files w' = <[out := data]> (files w) /\ dirs w' = dirs w).
Proof.
  intros Hs Hc Hw. split.
  - intros parts retries w size range_ok w1 Hd Hprobe Hcond.
    pose proof (confined_probe E url out _ _ _ Hprobe) as [Hd1 _].
    assert (Hf1 : files w1 = files w).
    { destruct (probe_world E url w) as (s & ok & Hp).
      rewrite Hp in Hprobe. by simplify_eq. }
    destruct (sequential_runs E url out data w1 Hs Hc Hw) as (w' & Hrun & Hf & Hd' & _).
    { by rewrite Hd1. }
    exists w'. split; [| split; [by rewrite Hf, Hf1 | by rewrite Hd', Hd1]].
    unfold parallel_download, bind at 1. rewrite Hprobe. simpl.
    destruct (size <=? 0) eqn:H0; [done |].
    destruct (negb range_ok || (parts <=? 1)) eqn:H1; [done |].
    apply orb_false_iff in H1 as [Hr Hp]. apply negb_false_iff in Hr.
    destruct Hcond as [? | [? | ?]]; [lia | congruence | lia].
  - intros size state_dir tasks ok w Hd.
    destruct (sequential_runs E url out data w Hs Hc Hw Hd) as (w' & Hrun & Hf & Hd' & _).
    exists w'. by split.
Qed.

Lemma range_server_serves_whole total F url :
  serves_whole (Env (range_server total) F) url (payload total).
Proof.
  intros h. eexists. split; [reflexivity |]. simpl. split; [lia |]. split; [done |].
  unfold body, block. simpl. apply app_nil_r.
Qed.

Lemma sequential_path_delivers_witness :
  exists w',
    conclude (Env (range_server 4) no_faults) "u" "o" 4 "o.parts"
      (plan_tasks "o.parts" 4 2) false true stale_world
    = (Ret true, w') /\
    files w' !! "o" = Some (payload 4) /\
    files w' !! state_path_of "o.parts" 0 = Some (list_byte_of_string "3").
Proof.
  destruct (sequential_path_delivers (Env (range_server 4) no_faults) "u" "o" (payload 4)
              (range_server_serves_whole 4 no_faults "u") eq_refl eq_refl) as [_ H].
  destruct (H 4 "o.parts" (plan_tasks "o.parts" 4 2) false stale_world)
    as (w' & Hrun & Hf & _).
  - vm_compute. intros Hin. discriminate Hin.
  - exists w'. split; [exact Hrun |]. rewrite Hf. split; reflexivity.
Defined.

(** ** Thread sessions *)

Lemma after_calls_lookup calls : forall tls thread,
  after_calls calls tls !! thread
  = match tls !! thread with
    | Some s => Some s
    | None => _make_session <$> first_pool thread calls
    end.
Proof.
  induction calls as [|[t p] calls IH]; intros tls thread; simpl.
  - by destruct (tls !! thread).
  - unfold after_calls in *. simpl. rewrite IH. unfold get_thread_session. simpl.
    destruct (Nat.eqb_spec t thread) as [-> | Hne].
    + destruct (tls !! thread) eqn:Ht; simpl; [by rewrite Ht |].
      by rewrite lookup_insert_eq.
    + destruct (tls !! t) eqn:Ht; simpl; [done |].
      by rewrite lookup_insert_ne.
Qed.

(** X23.  Sessions are made once per thread.  After any sequence of
    calls starting from an empty store, a thread's session is the one
    [_make_session] built for the pool size of that thread's first call
    (so it sends [Accept-Encoding: identity] and never retries on its
    own); threads that made no call have none.  A later call by the same
    thread returns that session and leaves the store as it is, whatever
    pool size it asks for, and a call never changes another thread's
    session. *)
Theorem thread_session_made_once :
  (forall calls thread,
     after_calls calls ∅ !! thread = _make_session <$> first_pool thread calls) /\
  (forall thread p1 p2 tls,
     let first := get_thread_session thread p1 tls in
     get_thread_session thread p2 (snd first) = first /\
     (forall other, other <> thread -> snd first !! other = tls !! other)).
Proof.
  split.
  - intros calls thread. by rewrite after_calls_lookup, lookup_empty.
  - intros thread p1 p2 tls first. subst first. unfold get_thread_session.
    destruct (tls !! thread) as [s|] eqn:Ht; simpl.
    + rewrite Ht. split; [done | done].
    + rewrite lookup_insert_eq. split; [done |].
      intros other Hne. by rewrite lookup_insert_ne.
Qed.

(** ** Recovery within the retry budget *)

(** One attempt whose request is answered with exactly the bytes still
    missing. *)
Lemma fetch_range_delivers E url out s e sp K w c r cr :
  fault_free E ->
  out <> sp -> out <> sp +:+ ".tmp" ->
  (sp ∉ dirs w) -> (sp +:+ ".tmp" ∉ dirs w) ->
  files w !! out = Some c ->
  0 <= s + K -> (Z.to_nat (s + K) <= length c)%nat ->
  serve E (trace w) (Get url (Some (s + K, e))) = Reply r ->
  status_code r = 206 -> content_range r = Some cr -> stream_error r = None ->
  K + received (chunks r) = e - s + 1 ->
  exists w',
    fetch_range E url out s e sp K w = (Ret (true, "ok"), w') /\
    files w' !! out = Some (splice c (Z.to_nat (s + K)) (body r)) /\
    confirmed E sp w' = e - s + 1 /\
    dirs w' = dirs w /\
    trace w' = trace w ++ [EvRequest (Get url (Some (s + K, e)))].
Proof.
  intros Hff Hne Hne' Hspd Htmpd Hc Hoff Hin Hs H206 Hcr Herr Hcount.
  unfold fetch_range, bind at 1, http. rewrite Hs, H206, Hcr. simpl.
  unfold bind at 1, raise_for_status. rewrite H206. simpl. unfold ret at 1.
  set (w1 := log _ w).
  destruct (stream_part_runs E out sp (chunks r) (s + K) K w1 Hff Hoff Hne Hne'
              (ex_intro _ c Hc) Hspd Htmpd) as (d & w3 & Hrun & Hd3).
  unfold bind at 1. rewrite Hrun.
  pose proof (stream_part_exact E out sp (chunks r) (s + K) K w1 c d w3
                Hne Hne' Hc Hoff Hin Hrun) as (Hdv & Hout & Hprog).
  pose proof (silent_stream_part E out sp (chunks r) (s + K) K w1 _ _ Hrun) as Htr.
  unfold bind at 1, end_of_stream. rewrite Herr. unfold ret at 1.
  unfold bind at 1. rewrite write_state_runs by (done || by rewrite Hd3).
  unfold bind. rewrite read_state_eq.
  set (w4 := set_files _ w3).
  assert (Hconf : confirmed E sp w4 = d).
  { eapply (write_state_confirmed E sp d w3 w4); [| apply Hff].
    by rewrite write_state_runs by (done || by rewrite Hd3). }
  rewrite Hconf.
  destruct (d >=? e - s + 1) eqn:Hge; [| lia].
  exists w4. split; [done |]. subst w4. simpl.
  split; [by rewrite lookup_insert_ne, lookup_delete_ne by done |].
  split; [rewrite Hconf; lia |]. split; [done |]. by rewrite Htr.
Qed.

Lemma requests_in_log_request rq w :
  requests_in (trace (log (EvRequest rq) w)) = requests_in (trace w) + 1.
Proof. simpl. by rewrite requests_in_app. Qed.

Lemma requests_in_log_sleep b k w :
  requests_in (trace (log (EvSleep b k) w)) = requests_in (trace w).
Proof. simpl. rewrite requests_in_app. unfold requests_in at 2. simpl. lia. Qed.

Section Recovery.

Variables (E : env) (url out : string) (s e : Z) (sp : string).
Variables (retries : Z) (backoff : Q) (K threshold : Z) (c : list byte).

Let rq : request := Get url (Some (s + K, e)).

Hypothesis no_fault : fault_free E.
Hypothesis out_not_state : out <> sp.
Hypothesis out_not_tmp : out <> sp +:+ ".tmp".
Hypothesis offset_nonneg : 0 <= s + K.
Hypothesis offset_inside : (Z.to_nat (s + K) <= length c)%nat.
Hypothesis incomplete : K < e - s + 1.
Hypothesis down : forall h, requests_in h < threshold -> exists err, serve E h rq = Unreachable err.
Hypothesis up : forall h, requests_in h = threshold ->
  exists r cr, serve E h rq = Reply r /\ status_code r = 206 /\
    content_range r = Some cr /\ stream_error r = None /\
    K + received (chunks r) = e - s + 1.

Lemma attempts_recover (k : nat) : forall fuel attempt w,
  attempt + Z.of_nat k <= retries -> 0 <= attempt -> (k < fuel)%nat ->
  requests_in (trace w) + Z.of_nat k = threshold ->
  confirmed E sp w = K -> files w !! out = Some c ->
  (sp ∉ dirs w) -> (sp +:+ ".tmp" ∉ dirs w) ->
  exists w' r pre,
    attempts E url out s e sp retries backoff fuel attempt w = (Ret (true, "ok"), w') /\
    trace w' = trace w ++ pre ++ [EvRequest rq] /\
    requests_in pre = Z.of_nat k /\ length pre = (2 * k)%nat /\
    serve E (trace w ++ pre) rq = Reply r /\
    files w' !! out = Some (splice c (Z.to_nat (s + K)) (body r)) /\
    confirmed E sp w' = e - s + 1.
Proof.
  induction k as [|k IH]; intros fuel attempt w Ha Ha0 Hfuel Hth HK Hc Hspd Htmpd;
    (destruct fuel as [|fuel]; [lia |]); simpl;
    (destruct (attempt <=? retries) eqn:Hle; [| lia]); simpl;
    unfold bind at 1; rewrite read_state_eq, HK;
    (destruct (K >=? e - s + 1) eqn:Hge; [lia |]); unfold try_catch.
  - destruct (up (trace w) ltac:(lia)) as (r & cr & Hs & H206 & Hcr & Herr & Hcount).
    destruct (fetch_range_delivers E url out s e sp K w c r cr) as
      (w' & -> & Hout & Hconf & _ & Htr); try done.
    exists w', r, []. rewrite app_nil_r. repeat split; try done.
  - destruct (down (trace w) ltac:(lia)) as (err & Hs).
    assert (Hfetch : fetch_range E url out s e sp K w = (Raise err, log (EvRequest rq) w)).
    { unfold fetch_range, bind, http. fold rq. by rewrite Hs. }
    rewrite Hfetch.
    destruct (attempt + 1 >? retries) eqn:Hex; [lia |].
    unfold bind at 1, sleep.
    set (w2 := log (EvSleep backoff (attempt + 1)) (log (EvRequest rq) w)).
    destruct (IH fuel (attempt + 1) w2)
      as (w' & r & pre & Hrun & Htr & Hn & Hlen & Hserve & Hout & Hconf);
      try done; try lia.
    + subst w2. rewrite requests_in_log_sleep, requests_in_log_request. lia.
    + by rewrite (confirmed_same_files E sp w2 w eq_refl).
    + assert (Htw : trace w2 = trace w ++ [EvRequest rq; EvSleep backoff (attempt + 1)]).
      { subst w2. simpl. by rewrite <- app_assoc. }
      exists w', r, ([EvRequest rq; EvSleep backoff (attempt + 1)] ++ pre).
      split; [done |].
      split; [by rewrite Htr, Htw, <- !app_assoc |].
      split; [rewrite requests_in_app, Hn; unfold requests_in at 1; simpl; lia |].
      split; [rewrite length_app, Hlen; simpl; lia |].
      split; [| done].
      by rewrite app_assoc, <- Htw.
Qed.

End Recovery.



(** ** Confirmed progress is never lost *)

Lemma confirmed_same_file E p w1 w2 :
  files w1 !! p = files w2 !! p -> confirmed E p w1 = confirmed E p w2.
Proof.
  intros Hf. unfold confirmed, _read_state. rewrite Hf.
  repeat case_match; simplify_eq/=; done.
Qed.

(** What [_write_state] does to the confirmed count: nothing, or, when it
    returns, the count becomes the value written. *)
Lemma write_state_steps E sp v w r w' :
  _write_state E sp v w = (r, w') ->
  confirmed E sp w' = confirmed E sp w \/ (r = Ret tt /\ confirmed E sp w' = v).
Proof.
  intros H. destruct (fault E OpRead sp) eqn:Hr.
  { left. unfold confirmed, _read_state. by rewrite Hr. }
  destruct r as [[]|e].
  - right. split; [done |]. by eapply write_state_confirmed.
  - left. apply write_state_inv in H as [(e' & _ & _ & Hf) | (? & _)]; [| done].
    apply confirmed_same_file, Hf. intros Heq. by apply (tmp_differs sp).
Qed.

Section NoRegress.

Variables (E : env) (url out : string) (start end_ : Z) (sp : string).
Variables (retries : Z) (backoff : Q).
Hypothesis out_not_state : out <> sp.

Let steady (w w' : world) : Prop := confirmed E sp w <= confirmed E sp w'.

Lemma write_at_steady off data w r w' :
  _write_at E out off data w = (r, w') -> confirmed E sp w' = confirmed E sp w.
Proof.
  intros [(e & _ & -> & _) | (c & _ & _ & _ & _ & ->)]%write_at_inv; [done |].
  apply confirmed_same_file. simpl. by rewrite lookup_insert_ne.
Qed.

Lemma stream_part_steady cs : forall off d w r w',
  confirmed E sp w <= d ->
  stream_part E out sp cs off d w = (r, w') ->
  steady w w' /\ match r with Ret d' => confirmed E sp w' <= d' | Raise _ => True end.
Proof.
  unfold steady. induction cs as [|[chunk due] cs IH]; intros off d w r w' Hd; simpl.
  - intros [= <- <-]. split; [lia | done].
  - destruct chunk as [|b chunk]; [by apply IH |].
    set (n := Z.of_nat (length (b :: chunk))).
    assert (Hn : 0 <= n) by lia. clearbody n.
    intros H.
    apply bind_inv in H as [([] & w1 & H1 & H) | (e & H1 & ->)];
      apply write_at_steady in H1; [| split; [lia | done]].
    apply bind_inv in H as [([] & w2 & H2 & H) | (e & H2 & ->)]; [| done].
    injection H2 as <-.
    apply bind_inv in H as [([] & w3 & H3 & H) | (e & H3 & ->)].
    + assert (H3' : confirmed E sp w3 = confirmed E sp w \/ confirmed E sp w3 = d + n).
      { destruct due.
        - apply write_state_steps in H3 as [-> | [_ ->]]; [left | by right].
          rewrite <- H1. by apply confirmed_same_file.
        - injection H3 as <-. left. rewrite <- H1. by apply confirmed_same_file. }
      apply IH in H as [Hs Hr]; [| lia]. split; [lia | done].
    + split; [| done]. destruct due; [| done].
      apply write_state_steps in H3 as [-> | [? _]]; [| done].
      assert (confirmed E sp (set_progress (progress w1 + n) w1) = confirmed E sp w1)
        as -> by (by apply confirmed_same_file).
      lia.
Qed.

Lemma fetch_range_steady w r w' :
  fetch_range E url out start end_ sp (confirmed E sp w) w = (r, w') -> steady w w'.
Proof.
  unfold steady. unfold fetch_range. intros H.
  apply bind_inv in H as [(rsp & w1 & Hq & H) | (e & Hq & ->)];
    apply http_inv in Hq as [-> Hs];
    [| by rewrite (confirmed_same_file E sp (log (EvRequest (Get url (Some (start + confirmed E sp w, end_)))) w) w)].
  set (w1 := log _ w) in *.
  assert (H1 : confirmed E sp w1 = confirmed E sp w) by (by apply confirmed_same_file).
  simpl. rewrite <- H1.
  destruct (negb (status_code rsp =? 206)); [unfold ret in H; by simplify_eq |].
  destruct (content_range rsp) as [cr|]; [| unfold ret in H; by simplify_eq].
  apply bind_inv in H as [(? & w2 & H2 & H) | (e & H2 & ->)];
    apply raise_for_status_inv in H2 as [-> _]; [| done].
  apply bind_inv in H as [(d & w3 & H3 & H) | (e & H3 & ->)];
    (apply stream_part_steady in H3 as [Hs3 Hd3]; [| lia]); unfold steady in Hs3;
    [| done].
  apply bind_inv in H as [(? & w4 & H4 & H) | (e & H4 & ->)];
    apply end_of_stream_inv in H4 as [-> _]; [| done].
  apply bind_inv in H as [(? & w5 & H5 & H) | (e & H5 & ->)];
    apply write_state_steps in H5 as [H5 | [? H5]]; try done.
  - unfold bind in H. rewrite read_state_eq in H.
    destruct (_ >=? _); unfold ret, raise in H; simplify_eq; lia.
  - unfold bind in H. rewrite read_state_eq in H.
    destruct (_ >=? _); unfold ret, raise in H; simplify_eq; lia.
  - lia.
Qed.

Lemma attempts_steady fuel : forall attempt w r w',
  attempts E url out start end_ sp retries backoff fuel attempt w = (r, w') -> steady w w'.
Proof.
  unfold steady. induction fuel as [|fuel IH]; intros attempt w r w'; simpl.
  { intros [= <- <-]. lia. }
  destruct (negb (attempt <=? retries)); [intros [= <- <-]; lia |].
  unfold bind at 1. rewrite read_state_eq.
  destruct (_ >=? _); [intros [= <- <-]; lia |].
  unfold try_catch.
  destruct (fetch_range E url out start end_ sp (confirmed E sp w) w) as [[a|e] w1] eqn:Hf;
    apply fetch_range_steady in Hf; unfold steady in Hf.
  - by intros [= <- <-].
  - destruct (attempt + 1 >? retries); [by intros [= <- <-] |].
    unfold bind at 1, sleep. intros H. apply IH in H.
    assert (Hs : confirmed E sp (log (EvSleep backoff (attempt + 1)) w1) = confirmed E sp w1)
      by (by apply confirmed_same_file).
    rewrite Hs in H. lia.
Qed.

End NoRegress.

(** X25.  A worker never loses confirmed progress.  When the state file
    is not the output file, whatever the server and the filesystem do
    (errors, short replies, failed state writes, retries), the byte
    count read from the segment's state file after the worker is at
    least the count read before it; and when the worker reports success
    the count is at least the segment's length. *)
Theorem worker_never_regresses E url out start end_ sp retries backoff w r w' :
  out <> sp ->
  download_part_direct E url out start end_ sp retries backoff w = (r, w') ->
  confirmed E sp w <= confirmed E sp w' /\
  (forall msg, r = Ret (true, msg) -> end_ - start + 1 <= confirmed E sp w').
Proof.
  intros Hne H.
  apply download_part_direct_inv in H as [(e & -> & ->) | [_ H]]; [split; [lia | done] |].
  split; [by eapply attempts_steady |].
  intros msg ->.
  destruct (Z.le_gt_cases 0 retries) as [Hr | Hr].
  - apply attempts_inv in H as (new & _ & _ & _ & _ & Hc); [done | lia | lia].
  - replace (Z.to_nat (retries + 1)) with 0%nat in H by lia. by simplify_eq/=.
Qed.

Lemma worker_never_regresses_witness :
  let E := Env (server_short 10) no_faults in
  let run := download_part_direct E "u" "o" 0 9 "s" 1 (3 # 2) resumed_world in
  confirmed E "s" resumed_world <= confirmed E "s" (snd run).
Proof.
  intros E run.
  apply (worker_never_regresses E "u" "o" 0 9 "s" 1 (3 # 2) resumed_world (fst run) (snd run)).
  - discriminate.
  - apply surjective_pairing.
Defined.
